(** * Kristian's AI Studio: the image proxy route and the gallery client

    A shallow embedding of [src/app/api/images/route.ts] (the request proxy)
    and of the studio page component (gallery store, search, JSON import and
    export, export overlay), with the properties of the specification stated
    and settled against it.

    Conventions of the embedding.
    - A JavaScript string is a [string]: the UTF-8 bytes of its text.
      [toLowerCase], [trim] and the [\s] class act on the ASCII range, which
      is exact for ASCII text; other bytes are left as they are.
    - A JavaScript value is a [Value].  JSON numbers are the integers, printed
      in decimal (as JavaScript prints them below 10^21).  The arithmetic of
      the overlay is done on IEEE 754 doubles ([spec_float], binary64).
    - A JSON text is represented by the document it denotes: [JSON.stringify]
      yields the document and [JSON.parse] reads it back; parsing a text that
      is not JSON throws.
    - Code that can throw returns an [Outcome]; the external image service is
      a record of functions whose calls are logged in a trace. *)

From Stdlib Require Import ZArith Ascii DecimalString SpecFloat.
From Stdlib Require QArith.
From stdpp Require Import base option list strings gmap.

Local Open Scope Z_scope.

(** ** JavaScript strings *)

Module Js.

(** The characters of the class [\s] and of [String.prototype.trim]. *)
Definition is_space (c : ascii) : bool :=
  match c with
  | "009" | "010" | "011" | "012" | "013" | " " => true
  | _ => false
  end%char.

Definition lower_char (c : ascii) : ascii :=
  let n := N_of_ascii c in
  if ((65 <=? n) && (n <=? 90))%N then ascii_of_N (n + 32) else c.

Fixpoint toLowerCase (s : string) : string :=
  match s with
  | EmptyString => EmptyString
  | String c s' => String (lower_char c) (toLowerCase s')
  end.

Fixpoint trimStart (s : string) : string :=
  match s with
  | String c s' => if is_space c then trimStart s' else s
  | EmptyString => EmptyString
  end.

Definition trimEnd (s : string) : string :=
  String.rev (trimStart (String.rev s)).

Definition trim (s : string) : string := trimEnd (trimStart s).

Definition is_empty (s : string) : bool :=
  match s with EmptyString => true | _ => false end.

(** [s.includes(q)]: [q] occurs in [s] as a contiguous substring. *)
Fixpoint includes (s q : string) : bool :=
  String.prefix q s ||
  match s with
  | EmptyString => false
  | String _ s' => includes s' q
  end.

(** [parts.join(sep)]. *)
Fixpoint join (sep : string) (parts : list string) : string :=
  match parts with
  | [] => ""
  | [p] => p
  | p :: rest => p +:+ sep +:+ join sep rest
  end.

(** [s.split(re)] for a regular expression [re] matching exactly one
    character of the class [sep]: every separator ends a piece, and empty
    pieces are kept. *)
Fixpoint split_chars (sep : ascii → bool) (s : string) : list string :=
  match s with
  | EmptyString => [""]
  | String c s' =>
      if sep c then "" :: split_chars sep s'
      else match split_chars sep s' with
           | w :: ws => String c w :: ws
           | [] => [String c ""]
           end
  end.

(** [s.split(/\s+/)]: a maximal run of white space is one separator.
    [in_gap] tells that the previous character belonged to a run that has
    already closed its piece. *)
Fixpoint split_spaces_go (in_gap : bool) (s : string) : list string :=
  match s with
  | EmptyString => [""]
  | String c s' =>
      if is_space c
      then (if in_gap then split_spaces_go true s'
            else "" :: split_spaces_go true s')
      else match split_spaces_go false s' with
           | w :: ws => String c w :: ws
           | [] => [String c ""]
           end
  end.

Definition split_spaces (s : string) : list string := split_spaces_go false s.


(** ** JavaScript values and exceptions *)

(** A [File] of a multipart form. *)
Record File := { file_name : string; file_type : string; file_bytes : string }.

#[local] Set Warnings "-register-all".

Inductive Value :=
  | VUndefined
  | VNull
  | VBool (b : bool)
  | VNum (n : Z)
  | VStr (s : string)
  | VArr (elements : list Value)
  | VObj (fields : list (string * Value))
  | VFile (f : File).

(** Truthiness, as tested by [!v], [v || d] and [c ? a : b]. *)
Definition truthy (v : Value) : bool :=
  match v with
  | VUndefined | VNull => false
  | VBool b => b
  | VNum n => negb (n =? 0)
  | VStr s => negb (is_empty s)
  | VArr _ | VObj _ | VFile _ => true
  end.

(** [a || b]. *)
Definition or_else (a b : Value) : Value := if truthy a then a else b.

Definition number_to_string (n : Z) : string :=
  NilZero.string_of_int (Z.to_int n).

(** The text of [v]: what [String(v)] and a template literal make of [v]
    when the conversion returns (see [String_] below). *)
Fixpoint toString (v : Value) : string :=
  match v with
  | VUndefined => "undefined"
  | VNull => "null"
  | VBool true => "true"
  | VBool false => "false"
  | VNum n => number_to_string n
  | VStr s => s
  | VArr elements =>
      join ","
        (List.map (λ x, match x with
                        | VUndefined | VNull => ""
                        | _ => toString x
                        end) elements)
  | VObj _ => "[object Object]"
  | VFile _ => "[object File]"
  end.

Definition isArray (v : Value) : bool :=
  match v with VArr _ => true | _ => false end.

(** [v === "text"]. *)
Definition is_string (v : Value) (text : string) : bool :=
  match v with VStr s => String.eqb s text | _ => false end.

(** A thrown value, seen through the only thing the code reads of it:
    [err?.message], [None] when there is none. *)
Inductive Outcome (A : Type) :=
  | Ok (a : A)
  | Throw (message : option string).
Arguments Ok {A} a.
Arguments Throw {A} message.

(** [err?.message || fallback]. *)
Definition message_or (err : option string) (fallback : string) : string :=
  match err with
  | Some m => if is_empty m then fallback else m
  | None => fallback
  end.

Fixpoint assoc {A} (key : string) (fields : list (string * A)) : option A :=
  match fields with
  | [] => None
  | (k, v) :: rest => if String.eqb k key then Some v else assoc key rest
  end.

(** [v.name] for a name that is no built-in property of strings, numbers,
    booleans or arrays (every name the program reads is such a name):
    reading a property of [null] or [undefined] throws a TypeError. *)
Definition get_prop (v : Value) (name : string) : Outcome Value :=
  match v with
  | VUndefined =>
      Throw (Some ("Cannot read properties of undefined (reading '" +:+ name +:+ "')"))
  | VNull =>
      Throw (Some ("Cannot read properties of null (reading '" +:+ name +:+ "')"))
  | VObj fields => Ok (default VUndefined (assoc name fields))
  | _ => Ok VUndefined
  end.

(** [v.name] when [v] is neither [null] nor [undefined]. *)
Definition field (v : Value) (name : string) : Value :=
  match get_prop v name with Ok x => x | Throw _ => VUndefined end.

(** The values that cannot be converted to a primitive.  An object read
    from JSON has the [toString] of [Object.prototype] unless it holds a
    property of that name, which is then no function: the conversion finds
    nothing to call ([valueOf] returns the object itself) and throws a
    TypeError.  An array is joined, which converts its elements. *)
Fixpoint unconvertible (v : Value) : bool :=
  match v with
  | VObj fields =>
      match assoc "toString" fields with Some _ => true | None => false end
  | VArr elements => existsb unconvertible elements
  | _ => false
  end.

(** [String(v)]; [new Error(v)] and a template literal convert [v] in the
    same way. *)
Definition String_ (v : Value) : Outcome string :=
  if unconvertible v then Throw (Some "Cannot convert object to primitive value")
  else Ok (toString v).

(** [values.map(String)]. *)
Fixpoint map_String (values : list Value) : Outcome (list string) :=
  match values with
  | [] => Ok []
  | v :: rest =>
      match String_ v with
      | Ok text =>
          match map_String rest with
          | Ok texts => Ok (text :: texts)
          | Throw err => Throw err
          end
      | Throw err => Throw err
      end
  end.

(** ** Numbers

    A JavaScript number is an IEEE 754 double.  The program multiplies the
    dimensions of a canvas, which are integers below 2^32, by decimal
    constants and takes [Math.floor] of the products. *)

Definition double_of_Z (n : Z) : spec_float := binary_normalize 53 1024 n 0 false.

(** [x * y] on doubles, rounded to nearest, ties to even. *)
Definition double_mul (x y : spec_float) : spec_float := SFmul 53 1024 x y.

(** The double a decimal literal [n/d] denotes: the one nearest to it. *)
Definition decimal (n d : Z) : spec_float :=
  SFdiv 53 1024 (double_of_Z n) (double_of_Z d).

(** [Math.floor(x)] of a finite [x]. *)
Definition Math_floor (x : spec_float) : Z :=
  match x with
  | S754_finite s m e =>
      let n := if s then Z.neg m else Z.pos m in
      if 0 <=? e then n * 2 ^ e else n / 2 ^ (- e)
  | _ => 0
  end.

End Js.

(** ** The request proxy: [src/app/api/images/route.ts] *)

Module Route.
Import Js.

(** [process.env]. *)
Record ProcessEnv := { OPENAI_API_KEY : option string }.

(** The entries of a multipart form: [FormDataEntryValue = string | File]. *)
Inductive FormDataEntryValue :=
  | FormString (s : string)
  | FormFile (f : File).

Definition FormData := list (string * FormDataEntryValue).

(** [form.get(name)]: the first entry of that name, [null] when none. *)
Definition form_get (form : FormData) (name : string) : Value :=
  match assoc name form with
  | Some (FormString s) => VStr s
  | Some (FormFile f) => VFile f
  | None => VNull
  end.

(** A [NextRequest], seen through what the handler reads of it: the
    content-type header and the outcomes of [req.formData()] and
    [req.json()]. *)
Record NextRequest := {
  content_type : option string;
  formData : Outcome FormData;
  json : Outcome Value
}.

Record Response := {
  status : Z;
  headers : list (string * string);
  body : Value
}.

(** The parameter objects handed to the image service. *)
Record GenerateParams := {
  gen_model : Value;
  gen_prompt : Value;
  gen_size : Value;
  gen_response_format : option string
}.

Record EditParams := {
  edit_model : Value;
  edit_prompt : Value;
  edit_image : list File;
  edit_mask : option File;
  edit_size : Value;
  edit_response_format : option string
}.

Record VariationParams := {
  var_model : Value;
  var_image : File;
  var_size : Value;
  var_response_format : string
}.

(** What the handler reads of the service's answer:
    [res.data?.[0]?.b64_json]. *)
Record ImageData := { b64_json : option string }.
Record ImagesResponse := { data : option (list ImageData) }.

(** [client.images] of the SDK: each operation returns or throws. *)
Record Images := {
  generate : GenerateParams → Outcome ImagesResponse;
  edit : EditParams → Outcome ImagesResponse;
  createVariation : VariationParams → Outcome ImagesResponse
}.

(** The calls made to the service, oldest first. *)
Inductive ApiCall :=
  | CallGenerate (p : GenerateParams)
  | CallEdit (p : EditParams)
  | CallVariation (p : VariationParams).

(** Computations that may throw and that log their service calls. *)
Definition Eff (A : Type) : Type := list ApiCall → Outcome A * list ApiCall.

Definition ret {A} (a : A) : Eff A := λ tr, (Ok a, tr).

Definition bind {A B} (m : Eff A) (k : A → Eff B) : Eff B :=
  λ tr, match m tr with
        | (Ok a, tr') => k a tr'
        | (Throw e, tr') => (Throw e, tr')
        end.

Definition lift {A} (o : Outcome A) : Eff A := λ tr, (o, tr).

Definition call {A} (c : ApiCall) (o : Outcome A) : Eff A :=
  λ tr, (o, tr ++ [c]).

Notation "'let*' x ':=' m 'in' k" := (bind m (λ x, k))
  (at level 10, x name, m at level 100, k at level 200).

Definition json_response (st : Z) (hs : list (string * string)) (doc : Value) : Response :=
  {| status := st; headers := hs; body := doc |}.

(** [new Response(JSON.stringify({ error: message }), { status })]. *)
Definition error_response (st : Z) (message : string) : Response :=
  json_response st [] (VObj [("error", VStr message)]).

(** [res.data?.[0]?.b64_json]. *)
Definition first_b64 (res : ImagesResponse) : option string :=
  match data res with
  | Some (img :: _) => b64_json img
  | _ => None
  end.

(** The three lines that end every branch of the handler:
    [const b64 = res.data?.[0]?.b64_json;
     if (!b64) return new Response(JSON.stringify({ error: "no image returned" }), { status: 500 });
     return new Response(JSON.stringify({ b64 }), { headers: ... });] *)
Definition b64_response (res : ImagesResponse) : Response :=
  match first_b64 res with
  | Some b64 =>
      if is_empty b64 then error_response 500 "no image returned"
      else json_response 200 [("content-type", "application/json")]
             (VObj [("b64", VStr b64)])
  | None => error_response 500 "no image returned"
  end.

(** The text of the model includes "dall-e". *)
Definition is_dalle (model : Value) : bool := includes (toString model) "dall-e".

(** [String(model).includes("dall-e")]. *)
Definition model_includes_dalle (model : Value) : Outcome bool :=
  match String_ model with
  | Ok text => Ok (includes text "dall-e")
  | Throw err => Throw err
  end.

Section Handler.

Variable env : ProcessEnv.
(** [new OpenAI({ apiKey }).images]. *)
Variable OpenAI : string → Images.

Definition getOpenAI : Outcome Images :=
  match OPENAI_API_KEY env with
  | Some apiKey =>
      if is_empty apiKey then Throw (Some "OPENAI_API_KEY is not set")
      else Ok (OpenAI apiKey)
  | None => Throw (Some "OPENAI_API_KEY is not set")
  end.

(** [{ model, prompt, size }], with [response_format] set when [dalle]. *)
Definition genParams_of (model prompt size : Value) (dalle : bool) : GenerateParams :=
  {| gen_model := model; gen_prompt := prompt; gen_size := size;
     gen_response_format := if dalle then Some "b64_json" else None |}.

(** The parameters of a generate call for a model that has a text. *)
Definition generate_params (model prompt size : Value) : GenerateParams :=
  genParams_of model prompt size (is_dalle model).

(** The body of the [try] block. *)
Definition POST_try (req : NextRequest) : Eff Response :=
  let contentType := default "" (content_type req) in
  let* client := lift getOpenAI in
  if includes contentType "multipart/form-data" then
    let* form := lift (formData req) in
    let action := or_else (form_get form "action") (VStr "generate") in
    let prompt := or_else (form_get form "prompt") (VStr "") in
    let size := or_else (form_get form "size") (VStr "1024x1024") in
    let model := or_else (form_get form "model") (VStr "gpt-image-1") in
    if is_string action "edit" then
      match form_get form "image" with
      | VFile imageFile =>
          let maskFile :=
            match form_get form "mask" with VFile m => Some m | _ => None end in
          let* dalle := lift (model_includes_dalle model) in
          let params :=
            {| edit_model := model; edit_prompt := prompt;
               edit_image := [imageFile]; edit_mask := maskFile;
               edit_size := size;
               edit_response_format :=
                 if dalle then Some "b64_json" else None |} in
          let* res := call (CallEdit params) (edit client params) in
          ret (b64_response res)
      | _ => ret (error_response 400 "image file is required for edit")
      end
    else if is_string action "variation" then
      match form_get form "image" with
      | VFile imageFile =>
          let* dalle := lift (model_includes_dalle model) in
          let varModel := if dalle then model else VStr "dall-e-2" in
          let params :=
            {| var_model := varModel; var_image := imageFile;
               var_size := size; var_response_format := "b64_json" |} in
          let* res := call (CallVariation params) (createVariation client params) in
          ret (b64_response res)
      | _ => ret (error_response 400 "image file is required for variation")
      end
    else
      let* dalle := lift (model_includes_dalle model) in
      let genParams := genParams_of model prompt size dalle in
      let* res := call (CallGenerate genParams) (generate client genParams) in
      ret (b64_response res)
  else
    let* body := lift (json req) in
    let* body_prompt := lift (get_prop body "prompt") in
    let prompt := or_else body_prompt (VStr "") in
    let* body_size := lift (get_prop body "size") in
    let size := or_else body_size (VStr "1024x1024") in
    let* body_model := lift (get_prop body "model") in
    let model := or_else body_model (VStr "gpt-image-1") in
    let* dalle := lift (model_includes_dalle model) in
    let genParams2 := genParams_of model prompt size dalle in
    let* res := call (CallGenerate genParams2) (generate client genParams2) in
    ret (b64_response res).

(** [POST]: the [try] block with its [catch], run from an empty trace.
    The result is the response and the service calls that were made. *)
Definition POST (req : NextRequest) : Response * list ApiCall :=
  match POST_try req [] with
  | (Ok response, calls) => (response, calls)
  | (Throw err, calls) =>
      let message := message_or err "Unknown error" in
      (error_response 500 message, calls)
  end.

End Handler.

(** *** Vocabulary for the properties of the proxy *)

Definition is_multipart (req : NextRequest) : bool :=
  includes (default "" (content_type req)) "multipart/form-data".

Definition key_configured (env : ProcessEnv) : bool :=
  match OPENAI_API_KEY env with
  | Some apiKey => negb (is_empty apiKey)
  | None => false
  end.

(** The action a request asks for: the [action] field of its form or of
    its JSON body. *)
Definition requested_action (req : NextRequest) : Value :=
  if is_multipart req then
    match formData req with
    | Ok form => or_else (form_get form "action") (VStr "generate")
    | Throw _ => VUndefined
    end
  else
    match json req with
    | Ok (VObj fields) => default VUndefined (assoc "action" fields)
    | _ => VUndefined
    end.

(** Whether the request carries an image file (only a form can). *)
Definition carries_image_file (req : NextRequest) : bool :=
  if is_multipart req then
    match formData req with
    | Ok form => match form_get form "image" with VFile _ => true | _ => false end
    | Throw _ => false
    end
  else false.

(** Reading the body of the request throws: [req.formData()] or
    [req.json()] does, or the JSON body is [null], whose properties cannot
    be read. *)
Definition body_unreadable (req : NextRequest) : bool :=
  if is_multipart req then
    match formData req with Ok _ => false | Throw _ => true end
  else
    match json req with
    | Ok VNull | Ok VUndefined | Throw _ => true
    | Ok _ => false
    end.

(** The model of a JSON body cannot be converted to a string:
    [String(model)] throws. *)
Definition model_unconvertible (req : NextRequest) : bool :=
  if is_multipart req then false
  else
    match json req with
    | Ok body => unconvertible (field body "model")
    | Throw _ => false
    end.

Definition call_outcome (client : Images) (c : ApiCall) : Outcome ImagesResponse :=
  match c with
  | CallGenerate p => generate client p
  | CallEdit p => edit client p
  | CallVariation p => createVariation client p
  end.

(** [s] is the [b64_json] of the first image of the answer [res]. *)
Definition first_image_is (res : ImagesResponse) (s : string) : Prop :=
  ∃ img others, data res = Some (img :: others) ∧ b64_json img = Some s.

(** Some call of the trace threw; some call of the trace returned without
    a non-empty [b64_json] in its first image. *)
Definition some_call_threw (client : Images) (calls : list ApiCall) : Prop :=
  ∃ c e, c ∈ calls ∧ call_outcome client c = Throw e.

Definition some_call_without_image (client : Images) (calls : list ApiCall) : Prop :=
  ∃ c res, c ∈ calls ∧ call_outcome client c = Ok res
           ∧ ∀ s, first_image_is res s → s = "".

(** What the handler decides from the request alone, before the service
    is involved: it throws (the body cannot be read, or the model cannot
    be converted), it rejects the request, or it makes a call. *)
Inductive Plan :=
  | Throws (err : option string)
  | Reject (message : string)
  | Invoke (c : ApiCall).

(** [body.name || fallback] for a body whose properties can be read. *)
Definition json_field_or (body : Value) (name fallback : string) : Value :=
  or_else (field body name) (VStr fallback).

Definition plan_json (body : Value) : Plan :=
  match get_prop body "prompt" with
  | Throw err => Throws err
  | Ok _ =>
      if unconvertible (field body "model")
      then Throws (Some "Cannot convert object to primitive value")
      else
        Invoke (CallGenerate
                  (generate_params (json_field_or body "model" "gpt-image-1")
                     (json_field_or body "prompt" "")
                     (json_field_or body "size" "1024x1024")))
  end.

Definition plan_form (form : FormData) : Plan :=
  let action := or_else (form_get form "action") (VStr "generate") in
  let prompt := or_else (form_get form "prompt") (VStr "") in
  let size := or_else (form_get form "size") (VStr "1024x1024") in
  let model := or_else (form_get form "model") (VStr "gpt-image-1") in
  if is_string action "edit" then
    match form_get form "image" with
    | VFile imageFile =>
        Invoke (CallEdit
                  {| edit_model := model; edit_prompt := prompt;
                     edit_image := [imageFile];
                     edit_mask := match form_get form "mask" with
                                  | VFile m => Some m
                                  | _ => None
                                  end;
                     edit_size := size;
                     edit_response_format :=
                       if is_dalle model then Some "b64_json" else None |})
    | _ => Reject "image file is required for edit"
    end
  else if is_string action "variation" then
    match form_get form "image" with
    | VFile imageFile =>
        Invoke (CallVariation
                  {| var_model := if is_dalle model then model else VStr "dall-e-2";
                     var_image := imageFile; var_size := size;
                     var_response_format := "b64_json" |})
    | _ => Reject "image file is required for variation"
    end
  else Invoke (CallGenerate (generate_params model prompt size)).

Definition plan (req : NextRequest) : Plan :=
  if is_multipart req then
    match formData req with
    | Ok form => plan_form form
    | Throw err => Throws err
    end
  else
    match json req with
    | Ok body => plan_json body
    | Throw err => Throws err
    end.

(** How a service outcome becomes the response. *)
Definition conclude (o : Outcome ImagesResponse) : Response :=
  match o with
  | Ok res => b64_response res
  | Throw err => error_response 500 (message_or err "Unknown error")
  end.

(** The bodies [{ b64 }] and [{ error }] of a response. *)
Definition b64_body (s : string) : Value := VObj [("b64", VStr s)].
Definition error_body (message : string) : Value := VObj [("error", VStr message)].

(** The service the handler talks to under [env]. *)
Definition service_of (env : ProcessEnv) (OpenAI : string → Images) : Images :=
  OpenAI (default "" (OPENAI_API_KEY env)).

Definition asks_edit_or_variation (req : NextRequest) : Prop :=
  is_string (requested_action req) "edit" = true
  ∨ is_string (requested_action req) "variation" = true.

(** A validation error: status 400, a body [{ error }], no call made. *)
Definition rejected_without_call (result : Response * list ApiCall) : Prop :=
  status result.1 = 400 ∧ (∃ message, body result.1 = error_body message)
  ∧ result.2 = [].

Definition is_generate_call (c : ApiCall) : Prop :=
  match c with CallGenerate _ => True | _ => False end.

(** The request with the [action] field of its JSON body set to [a]. *)
Definition with_json_action (a : Value) (req : NextRequest) : NextRequest :=
  {| content_type := content_type req;
     formData := formData req;
     json := match json req with
             | Ok (VObj fields) => Ok (VObj (("action", a) :: fields))
             | other => other
             end |}.

(** *** Sample inputs *)

Definition one_image (s : string) : ImagesResponse :=
  {| data := Some [ {| b64_json := Some s |} ] |}.

(** A service that answers every call with the same image. *)
Definition steady_service (apiKey : string) : Images :=
  {| generate := λ _, Ok (one_image "aGVsbG8=");
     edit := λ _, Ok (one_image "aGVsbG8=");
     createVariation := λ _, Ok (one_image "aGVsbG8=") |}.

Definition sample_env : ProcessEnv := {| OPENAI_API_KEY := Some "sk-test" |}.

Definition json_request (doc : Outcome Value) : NextRequest :=
  {| content_type := Some "application/json";
     formData := Throw (Some "Content-Type was not one of multipart/form-data");
     json := doc |}.

Definition form_request (form : FormData) : NextRequest :=
  {| content_type := Some "multipart/form-data; boundary=----x";
     formData := Ok form;
     json := Throw (Some "Unexpected token - in JSON at position 0") |}.

(** A JSON body asking for an edit. *)
Definition json_edit_request : NextRequest :=
  json_request (Ok (VObj [("prompt", VStr "a red fox"); ("size", VStr "512x512");
                          ("model", VStr "gpt-image-1"); ("action", VStr "edit")])).

(** A body that is not JSON. *)
Definition broken_json_request : NextRequest :=
  json_request (Throw (Some "Unexpected end of JSON input")).

(** A JSON body asking for an edit, whose model is an object holding a
    property named [toString]. *)
Definition json_request_with_object_model : NextRequest :=
  json_request (Ok (VObj [("prompt", VStr "a red fox");
                          ("model", VObj [("toString", VNum 1)]);
                          ("action", VStr "edit")])).

Definition edit_form_without_image : NextRequest :=
  form_request [("action", FormString "edit"); ("prompt", FormString "make it blue");
                ("size", FormString "1024x1024"); ("model", FormString "gpt-image-1")].

Definition no_key_env : ProcessEnv := {| OPENAI_API_KEY := None |}.

Definition sample_file : File :=
  {| file_name := "cat.png"; file_type := "image/png"; file_bytes := "iVBORw0KGgo" |}.

(** A variation of an image, asked with the default model of the form. *)
Definition variation_form_with_image : NextRequest :=
  form_request [("action", FormString "variation"); ("prompt", FormString "");
                ("size", FormString "512x512"); ("model", FormString "gpt-image-1");
                ("image", FormFile sample_file)].

End Route.

(** ** The studio page: gallery store, search, import and export, overlay *)

Module Studio.
Import Js.

(** A [GalleryItem] as it exists at run time.  [Action] and [Size] are
    TypeScript unions of string literals, erased at run time: import casts
    to them without a check, and [b64] of a new item is [data.b64] of the
    proxy's answer, so these three fields hold a [Value]. *)
Record GalleryItem := {
  id : string;
  createdAt : string;
  prompt : string;
  action : Value;
  size : Value;
  model : string;
  b64 : Value;
  tags : option (list string)
}.

Definition actions : list Value := [VStr "generate"; VStr "edit"; VStr "variation"].
Definition sizes : list Value :=
  [VStr "256x256"; VStr "512x512"; VStr "1024x1024"; VStr "2048x2048"].

(** The platform the component runs on: the results of the successive
    calls of [generateId()] and of [new Date().toISOString()], the number
    of calls made so far, and whether [localStorage.setItem] accepts a
    value (it throws on quota). *)
Record World := {
  uuids : nat → string;
  instants : nat → string;
  quota_ok : list GalleryItem → bool;
  uuid_calls : nat;
  date_calls : nat;
  localStorage : option (list GalleryItem)
}.

(** Steps of the component: they read and change the world and may throw. *)
Definition Step (A : Type) : Type := World → Outcome A * World.

Definition ret {A} (a : A) : Step A := λ w, (Ok a, w).

Definition bind {A B} (m : Step A) (k : A → Step B) : Step B :=
  λ w, match m w with
       | (Ok a, w') => k a w'
       | (Throw e, w') => (Throw e, w')
       end.

Definition lift {A} (o : Outcome A) : Step A := λ w, (o, w).

Notation "'let*' x ':=' m 'in' k" := (bind m (λ x, k))
  (at level 10, x name, m at level 100, k at level 200).

Definition generateId : Step string :=
  λ w, (Ok (uuids w (uuid_calls w)),
        {| uuids := uuids w; instants := instants w; quota_ok := quota_ok w;
           uuid_calls := S (uuid_calls w); date_calls := date_calls w;
           localStorage := localStorage w |}).

(** [new Date().toISOString()]. *)
Definition toISOString_now : Step string :=
  λ w, (Ok (instants w (date_calls w)),
        {| uuids := uuids w; instants := instants w; quota_ok := quota_ok w;
           uuid_calls := uuid_calls w; date_calls := S (date_calls w);
           localStorage := localStorage w |}).

(** [saveGalleryToStorage]: a quota error is caught and ignored. *)
Definition saveGalleryToStorage (items : list GalleryItem) (w : World) : World :=
  if quota_ok w items then
    {| uuids := uuids w; instants := instants w; quota_ok := quota_ok w;
       uuid_calls := uuid_calls w; date_calls := date_calls w;
       localStorage := Some items |}
  else w.

(** The component's state (the [useState] cells the operations below read
    or write). *)
Record State := {
  prompt_input : string;
  size_input : Value;
  action_input : Value;
  model_input : string;
  imageB64 : Value;
  loading : bool;
  error : option string;
  gallery : list GalleryItem;
  tagsInput : string
}.

Definition set_gallery (next : list GalleryItem) (st : State) : State :=
  {| prompt_input := prompt_input st; size_input := size_input st;
     action_input := action_input st; model_input := model_input st;
     imageB64 := imageB64 st; loading := loading st; error := error st;
     gallery := next; tagsInput := tagsInput st |}.

Definition set_error (message : option string) (st : State) : State :=
  {| prompt_input := prompt_input st; size_input := size_input st;
     action_input := action_input st; model_input := model_input st;
     imageB64 := imageB64 st; loading := loading st; error := message;
     gallery := gallery st; tagsInput := tagsInput st |}.

Definition set_imageB64 (image : Value) (st : State) : State :=
  {| prompt_input := prompt_input st; size_input := size_input st;
     action_input := action_input st; model_input := model_input st;
     imageB64 := image; loading := loading st; error := error st;
     gallery := gallery st; tagsInput := tagsInput st |}.

Definition set_loading (flag : bool) (st : State) : State :=
  {| prompt_input := prompt_input st; size_input := size_input st;
     action_input := action_input st; model_input := model_input st;
     imageB64 := imageB64 st; loading := flag; error := error st;
     gallery := gallery st; tagsInput := tagsInput st |}.

(** The initial state of the component. *)
Definition initial : State :=
  {| prompt_input := ""; size_input := VStr "1024x1024";
     action_input := VStr "generate"; model_input := "gpt-image-1";
     imageB64 := VNull; loading := false; error := None;
     gallery := []; tagsInput := "" |}.

(** [[item, ...prev].slice(0, 100)]. *)
Definition addToGallery (item : GalleryItem) (st : State) (w : World) : State * World :=
  let next := take 100 (item :: gallery st) in
  (set_gallery next st, saveGalleryToStorage next w).

Definition deleteFromGallery (target : string) (st : State) (w : World) : State * World :=
  let next := List.filter (λ g, negb (bool_decide (id g = target))) (gallery st) in
  (set_gallery next st, saveGalleryToStorage next w).

(** The "Clear all" button. *)
Definition clearGallery (st : State) (w : World) : State * World :=
  (set_gallery [] st, saveGalleryToStorage [] w).

Definition is_tag_separator (c : ascii) : bool :=
  match c with
  | "," | "010" => true
  | _ => false
  end%char.

Definition parseTags (input : string) : list string :=
  take 20
    (List.filter (λ t, negb (is_empty t))
       (List.map trim (split_chars is_tag_separator input))).

(** [(item.tags || [])]. *)
Definition tags_or_empty (item : GalleryItem) : list string := default [] (tags item).

(** The predicate of [gallery.filter] in [filteredGallery], on an item
    whose action and size have a text. *)
Definition matches (q : string) (item : GalleryItem) : bool :=
  let txt :=
    toLowerCase (prompt item +:+ " " +:+ model item +:+ " "
                 +:+ toString (action item) +:+ " " +:+ toString (size item)) in
  let tagStr := toLowerCase (join " " (tags_or_empty item)) in
  includes txt q || includes tagStr q.

Definition filteredGallery (gallery : list GalleryItem) (searchQuery : string)
  : list GalleryItem :=
  let q := toLowerCase (trim searchQuery) in
  if is_empty q then gallery else List.filter (matches q) gallery.


(** *** Export and import of the gallery as JSON *)

(** The document [JSON.stringify(v)] writes, [None] when it writes nothing
    (an [undefined] property is left out, an [undefined] element is written
    [null], a [File] has no enumerable property). *)
Fixpoint stringify (v : Value) : option Value :=
  match v with
  | VUndefined => None
  | VFile _ => Some (VObj [])
  | VArr elements =>
      Some (VArr (List.map (λ x, default VNull (stringify x)) elements))
  | VObj fields =>
      Some (VObj ((fix props (fs : list (string * Value)) :=
                     match fs with
                     | [] => []
                     | (k, x) :: rest =>
                         match stringify x with
                         | Some d => (k, d) :: props rest
                         | None => props rest
                         end
                     end) fields))
  | _ => Some v
  end.

Definition property (key : string) (v : Value) : list (string * Value) :=
  match stringify v with
  | Some d => [(key, d)]
  | None => []
  end.

Definition stringify_item (item : GalleryItem) : Value :=
  VObj ([("id", VStr (id item)); ("createdAt", VStr (createdAt item));
         ("prompt", VStr (prompt item))]
        ++ property "action" (action item)
        ++ property "size" (size item)
        ++ [("model", VStr (model item))]
        ++ property "b64" (b64 item)
        ++ match tags item with
           | Some ts => [("tags", VArr (List.map VStr ts))]
           | None => []
           end).

(** [exportGalleryAsJSON]: the document of the downloaded file,
    [JSON.stringify(gallery, null, 2)]. *)
Definition exportGalleryAsJSON (st : State) : Value :=
  VArr (List.map stringify_item (gallery st)).

(** [x.name || fallback()] *)
Definition prop_or (x : Value) (name : string) (fallback : Step Value) : Step Value :=
  let* v := lift (get_prop x name) in
  if truthy v then ret v else fallback.

(** The callback of [arr.map] in [handleImportFile]: the properties of
    the object literal are evaluated in their order, and each [String(...)]
    may throw. *)
Definition import_entry (x : Value) : Step GalleryItem :=
  let* x_id := prop_or x "id" (let* fresh := generateId in ret (VStr fresh)) in
  let* item_id := lift (String_ x_id) in
  let* x_createdAt :=
    prop_or x "createdAt" (let* now := toISOString_now in ret (VStr now)) in
  let* item_createdAt := lift (String_ x_createdAt) in
  let* x_prompt := prop_or x "prompt" (ret (VStr "")) in
  let* item_prompt := lift (String_ x_prompt) in
  let* x_action := prop_or x "action" (ret (VStr "generate")) in
  let* x_size := prop_or x "size" (ret (VStr "1024x1024")) in
  let* x_model := prop_or x "model" (ret (VStr "gpt-image-1")) in
  let* item_model := lift (String_ x_model) in
  let* x_b64 := prop_or x "b64" (ret (VStr "")) in
  let* item_b64 := lift (String_ x_b64) in
  let* x_tags := lift (get_prop x "tags") in
  let* item_tags :=
    match x_tags with
    | VArr ts => lift (map_String ts)
    | _ => ret []
    end in
  ret {| id := item_id;
         createdAt := item_createdAt;
         prompt := item_prompt;
         action := x_action;
         size := x_size;
         model := item_model;
         b64 := VStr item_b64;
         tags := Some item_tags |}.

Fixpoint import_entries (arr : list Value) : Step (list GalleryItem) :=
  match arr with
  | [] => ret []
  | x :: rest =>
      let* item := import_entry x in
      let* items := import_entries rest in
      ret (item :: items)
  end.

(** [x.b64.length > 0], on the string the callback made of [b64]. *)
Definition has_image (item : GalleryItem) : bool :=
  match b64 item with
  | VStr s => negb (is_empty s)
  | _ => false
  end.

(** The updater passed to [setGallery] by [handleImportFile]. *)
Definition merge (incoming prev : list GalleryItem) : list GalleryItem :=
  let existingIds : gset string := list_to_set (List.map id prev) in
  List.filter (λ i, negb (bool_decide (id i ∈ existingIds))) incoming ++ prev.

(** [handleImportFile].  [file] is [e.target.files?.[0]], given by the
    outcome of [JSON.parse(await file.text())]. *)
Definition handleImportFile (file : option (Outcome Value)) (st : State) (w : World)
  : State * World :=
  match file with
  | None => (st, w)
  | Some parsed =>
      let attempt : Step (list GalleryItem) :=
        let* arr := lift parsed in
        match arr with
        | VArr entries =>
            let* items := import_entries entries in
            ret (List.filter has_image items)
        | _ => lift (Throw (Some "Invalid JSON"))
        end in
      match attempt w with
      | (Ok incoming, w') =>
          let merged := merge incoming (gallery st) in
          (set_gallery merged st, saveGalleryToStorage merged w')
      | (Throw err, w') =>
          (set_error (Some (message_or err "Failed to import")) st, w')
      end
  end.


(** *** Submission *)

Definition canUpload (st : State) : bool :=
  negb (is_string (action_input st) "generate").

(** [handleSubmit], from the outcome [fetched] of the [fetch] of
    [/api/images] (the request is multipart when [canUpload], JSON
    otherwise).  [res.json()] reads the document of the response body. *)
Definition handleSubmit (fetched : Outcome Route.Response) (st : State) (w : World)
  : State * World :=
  let st0 := set_imageB64 VNull (set_loading true (set_error None st)) in
  let attempt : Step State :=
    let* res := lift fetched in
    let data := Route.body res in
    let ok := (200 <=? Route.status res) && (Route.status res <=? 299) in
    if negb ok then
      let data_error :=
        match data with
        | VNull | VUndefined => VUndefined
        | VObj fields => default VUndefined (assoc "error" fields)
        | _ => VUndefined
        end in
      let* message := lift (String_ (or_else data_error (VStr "Request failed"))) in
      lift (Throw (Some message))
    else
      let* data_b64 := lift (get_prop data "b64") in
      let st1 := set_imageB64 data_b64 st0 in
      let* new_id := generateId in
      let* now := toISOString_now in
      let item :=
        {| id := new_id; createdAt := now; prompt := prompt_input st;
           action := action_input st; size := size_input st;
           model := model_input st; b64 := data_b64;
           tags := Some (parseTags (tagsInput st)) |} in
      λ w1, let '(st2, w2) := addToGallery item st1 w1 in (Ok st2, w2) in
  match attempt w with
  | (Ok st', w') => (set_loading false st', w')
  | (Throw err, w') =>
      (set_loading false
         (set_error (Some (message_or err "Something went wrong")) st0), w')
  end.

(** *** The export overlay *)

(** The drawing calls made on the canvas context, with the [fillStyle] and
    [font] in force. *)
Inductive DrawOp :=
  | FillRect (fillStyle : string) (x y w h : Z)
  | FillText (fillStyle font text : string) (x y : Z).

Definition Qltb (a b : QArith_base.Q) : bool := negb (QArith_base.Qle_bool b a).

(** The [for] loop over the words, with its [break]. *)
Fixpoint wrap_words (fits : string → bool) (words lines : list string) (line : string)
  : list string * string :=
  match words with
  | [] => (lines, line)
  | w :: rest =>
      let test := if is_empty line then w else line +:+ " " +:+ w in
      let '(lines1, line1) :=
        if fits test then (lines, test)
        else (if is_empty line then lines else lines ++ [line], w) in
      if bool_decide (length lines1 = 2%nat) then (lines1, line1)
      else wrap_words fits rest lines1 line1
  end.

(** The lines of the prompt that are drawn: the loop, then
    [if (line && lines.length < 2) lines.push(line)]. *)
Definition prompt_lines (fits : string → bool) (promptText : string) : list string :=
  let '(lines, line) := wrap_words fits (split_spaces promptText) [] "" in
  if negb (is_empty line) && bool_decide (length lines < 2)%nat
  then lines ++ [line] else lines.

(** The template literal of the metadata line, which converts the action
    and the size to strings. *)
Definition meta_line (item : GalleryItem) : Outcome string :=
  match String_ (action item) with
  | Ok item_action =>
      match String_ (size item) with
      | Ok item_size =>
          Ok (item_action +:+ " • " +:+ item_size +:+ " • "
              +:+ model item +:+ " • " +:+ join ", " (tags_or_empty item))
      | Throw err => Throw err
      end
  | Throw err => Throw err
  end.

Definition font_of (weight : string) (px : Z) : string :=
  weight +:+ " " +:+ number_to_string px
  +:+ "px system-ui, -apple-system, Segoe UI, Roboto".

(** The literals [0.02], [0.16], [0.018] and [0.014]. *)
Definition double_0_02 : spec_float := Eval vm_compute in decimal 2 100.
Definition double_0_16 : spec_float := Eval vm_compute in decimal 16 100.
Definition double_0_018 : spec_float := Eval vm_compute in decimal 18 1000.
Definition double_0_014 : spec_float := Eval vm_compute in decimal 14 1000.

Section Overlay.

(** [ctx.measureText(text).width] under the font [font]. *)
Variable measureText : string → string → QArith_base.Q.

(** [drawOverlay].  [width] and [height] are the dimensions of the canvas,
    which are integers.  The result is the list of the drawing calls made
    and whether the function returned or threw. *)
Definition drawOverlay (item : GalleryItem) (width height : Z)
  : list DrawOp * Outcome unit :=
  let pad := Z.max 16 (Math_floor (double_mul (double_of_Z width) double_0_02)) in
  let overlayHeight :=
    Z.max 72 (Math_floor (double_mul (double_of_Z height) double_0_16)) in
  let headingSize :=
    Z.max 16 (Math_floor (double_mul (double_of_Z width) double_0_018)) in
  let metaSize :=
    Z.max 12 (Math_floor (double_mul (double_of_Z width) double_0_014)) in
  let headingFont := font_of "600" headingSize in
  let maxPromptWidth := width - pad * 2 in
  let fits test :=
    Qltb (measureText headingFont test) (QArith_base.inject_Z maxPromptWidth) in
  let lines := prompt_lines fits (prompt item) in
  let promptYStart := height - overlayHeight + pad + headingSize in
  let drawn :=
    [FillRect "rgba(0,0,0,0.55)" 0 (height - overlayHeight) width overlayHeight]
    ++ imap (λ i l, FillText "#fff" headingFont l pad
                      (promptYStart + Z.of_nat i * (headingSize + 4))) lines in
  match meta_line item with
  | Ok meta =>
      (drawn ++ [FillText "#fff" (font_of "400" metaSize) meta pad (height - pad)],
       Ok tt)
  | Throw err => (drawn, Throw err)
  end.

End Overlay.

(** The texts written by [fillText], in order. *)
Definition texts (ops : list DrawOp) : list string :=
  omap (λ op, match op with FillText _ _ text _ _ => Some text | _ => None end) ops.

(** *** Vocabulary for the properties of the gallery *)

(** [q] occurs in [s]. *)
Definition is_substring (q s : string) : Prop := ∃ before after, s = before +:+ q +:+ after.


(** The invariants the specification states for a gallery item: the action
    and the size are of their enumerations, the image is a non-empty string,
    the tags are a list of strings (the other fields are strings by their
    type). *)
Definition well_formed (item : GalleryItem) : Prop :=
  action item ∈ actions ∧ size item ∈ sizes
  ∧ (∃ s, b64 item = VStr s ∧ s ≠ "") ∧ is_Some (tags item).

(** The fields that import replaces when they are empty. *)
Definition defaults_free (item : GalleryItem) : Prop :=
  id item ≠ "" ∧ createdAt item ≠ "" ∧ model item ≠ "".

Definition ids (items : list GalleryItem) : list string := List.map id items.

(** The item the import callback builds from an entry [x] that it can
    convert ([convertible] below), and the world it leaves: an id or a
    date is drawn only when the entry has none. *)
Definition imported (x : Value) (w : World) : GalleryItem :=
  {| id := toString (or_else (field x "id") (VStr (uuids w (uuid_calls w))));
     createdAt :=
       toString (or_else (field x "createdAt") (VStr (instants w (date_calls w))));
     prompt := toString (or_else (field x "prompt") (VStr ""));
     action := or_else (field x "action") (VStr "generate");
     size := or_else (field x "size") (VStr "1024x1024");
     model := toString (or_else (field x "model") (VStr "gpt-image-1"));
     b64 := VStr (toString (or_else (field x "b64") (VStr "")));
     tags := match field x "tags" with
             | VArr ts => Some (List.map toString ts)
             | _ => Some []
             end |}.

Definition after_entry (x : Value) (w : World) : World :=
  {| uuids := uuids w; instants := instants w; quota_ok := quota_ok w;
     uuid_calls := if truthy (field x "id") then uuid_calls w else S (uuid_calls w);
     date_calls :=
       if truthy (field x "createdAt") then date_calls w else S (date_calls w);
     localStorage := localStorage w |}.

Definition readable (x : Value) : Prop := x ≠ VNull ∧ x ≠ VUndefined.

(** An entry from which the import callback builds an item: it is neither
    [null] nor [undefined], and the values the callback converts to
    strings (id, createdAt, prompt, model, b64 and the elements of tags)
    can be converted. *)
Definition convertible (x : Value) : bool :=
  match x with
  | VNull | VUndefined => false
  | _ =>
      negb (unconvertible (field x "id"))
      && negb (unconvertible (field x "createdAt"))
      && negb (unconvertible (field x "prompt"))
      && negb (unconvertible (field x "model"))
      && negb (unconvertible (field x "b64"))
      && match field x "tags" with
         | VArr ts => negb (existsb unconvertible ts)
         | _ => true
         end
  end.

(** The items built from the entries of a file, one after the other. *)
Fixpoint imported_items (entries : list Value) (w : World) : list GalleryItem :=
  match entries with
  | [] => []
  | x :: rest => imported x w :: imported_items rest (after_entry x w)
  end.

(** The words of a text, as the specification understands them: the text
    is [w0 g1 w1 ... gn wn], where every [gi] is a maximal, non-empty run
    of white space and no [wi] holds white space. *)
Fixpoint space_free (w : string) : bool :=
  match w with
  | EmptyString => true
  | String c w' => negb (is_space c) && space_free w'
  end.

Fixpoint all_space (gap : string) : bool :=
  match gap with
  | EmptyString => true
  | String c gap' => is_space c && all_space gap'
  end.

Definition starts_with_space (s : string) : bool :=
  match s with
  | String c _ => is_space c
  | EmptyString => false
  end.

Inductive split_at_spaces : string → list string → Prop :=
  | split_word w : space_free w = true → split_at_spaces w [w]
  | split_gap w gap rest words :
      space_free w = true → gap ≠ "" → all_space gap = true →
      starts_with_space rest = false →
      split_at_spaces rest words →
      split_at_spaces (w +:+ gap +:+ rest) (w :: words).

(** The sizes of the overlay on a canvas: the padding, the height of the
    band and the size of the heading font. *)
Definition band_padding (width : Z) : Z :=
  Z.max 16 (Math_floor (double_mul (double_of_Z width) double_0_02)).

Definition band_height (height : Z) : Z :=
  Z.max 72 (Math_floor (double_mul (double_of_Z height) double_0_16)).

Definition heading_size (width : Z) : Z :=
  Z.max 16 (Math_floor (double_mul (double_of_Z width) double_0_018)).

(** Greedy word wrap: a line takes the coming words as long as it, with
    the next word appended after a space, still fits; the word that does
    not fit opens the next line. *)
Fixpoint greedy_lines (fits : string → bool) (line : string) (words : list string)
  : list string :=
  match words with
  | [] => if is_empty line then [] else [line]
  | w :: rest =>
      let test := if is_empty line then w else line +:+ " " +:+ w in
      if fits test then greedy_lines fits test rest
      else (if is_empty line then [] else [line]) ++ greedy_lines fits w rest
  end.

(** The test of the wrap loop of [drawOverlay] on a canvas of width
    [width]: the text, in the heading font, is narrower than the band
    between the paddings. *)
Definition fits_band (measureText : string → string → QArith_base.Q) (width : Z)
  (test : string) : bool :=
  Qltb (measureText (font_of "600" (heading_size width)) test)
    (QArith_base.inject_Z (width - band_padding width * 2)).

(** Checking a property of the integers [start], ..., [start + count - 1]. *)
Fixpoint holds_from (check : Z → bool) (start : Z) (count : nat) : bool :=
  match count with
  | O => true
  | S n => check start && holds_from check (start + 1) n
  end.

(** What the layout of the overlay needs of a dimension [n]: on a square
    canvas of that size two prompt lines and the paddings are lower than
    the band, twice the padding is narrower than the canvas when this is
    wider than 32, and the height of the band is the integer part of 16
    per cent of [n], or 72. *)
Definition overlay_sizes_ok (n : Z) : bool :=
  (2 * band_padding n + 2 * heading_size n + 4 <? Z.max 72 (n * 16 / 100))
  && ((n <=? 32) || (2 * band_padding n <? n))
  && (band_height n =? Z.max 72 (n * 16 / 100)).

(** An item as its TypeScript type describes it: the action and the size
    are strings. *)
Definition typed_item (item_id created promptText item_action item_size
                       item_model : string)
  (image : Value) (item_tags : option (list string)) : GalleryItem :=
  {| id := item_id; createdAt := created; prompt := promptText;
     action := VStr item_action; size := VStr item_size; model := item_model;
     b64 := image; tags := item_tags |}.

(** *** Sample inputs *)

Definition sample_world : World :=
  {| uuids := λ n, "uuid-" +:+ number_to_string (Z.of_nat n);
     instants := λ _, "2025-01-01T00:00:00.000Z";
     quota_ok := λ _, true;
     uuid_calls := 0; date_calls := 0; localStorage := None |}.

Definition fox_item : GalleryItem :=
  {| id := "7f3c"; createdAt := "2024-05-01T10:00:00.000Z"; prompt := "A red fox";
     action := VStr "generate"; size := VStr "1024x1024"; model := "gpt-image-1";
     b64 := VStr "aGVsbG8="; tags := Some ["noir"] |}.

(** An item made by a submission with the model field left empty. *)
Definition unnamed_model_item : GalleryItem :=
  {| id := "91ab"; createdAt := "2024-05-02T08:30:00.000Z"; prompt := "A red fox";
     action := VStr "generate"; size := VStr "512x512"; model := "";
     b64 := VStr "aGVsbG8="; tags := Some [] |}.

Definition entry (name image : string) : Value :=
  VObj [("id", VStr name); ("b64", VStr image)].

(** A file of 101 entries with distinct ids. *)
Definition file_of_101 : Value :=
  VArr (List.map (λ n, entry ("img-" +:+ number_to_string (Z.of_nat n)) "aGVsbG8=")
          (seq 0 101)).

(** A file with the same id twice. *)
Definition file_with_twins : Value :=
  VArr [entry "a" "aGVsbG8="; entry "a" "d29ybGQ="].

(** A file whose entry has 21 tags. *)
Definition file_with_21_tags : Value :=
  VArr [VObj [("id", VStr "a"); ("b64", VStr "aGVsbG8=");
              ("tags", VArr (List.map (λ n, VStr ("t" +:+ number_to_string (Z.of_nat n)))
                               (seq 0 21)))]].

Definition import (doc : Value) (st : State) : State :=
  (handleImportFile (Some (Ok doc)) st sample_world).1.

(** *** The rest of the component: pre-fill, the request of a submission,
    loading from storage, the events of the page *)

(** [handleUsePrompt]: the form is filled from an item of the gallery. *)
Definition handleUsePrompt (item : GalleryItem) (st : State) : State :=
  {| prompt_input := prompt item; size_input := size item;
     action_input := action item; model_input := model item;
     imageB64 := imageB64 st; loading := loading st; error := error st;
     gallery := gallery st;
     tagsInput := join ", " (tags_or_empty item) |}.

(** The [FormData] built by [handleSubmit] when [canUpload]; [imageFile]
    and [maskFile] are [files?.[0]] of the two file inputs.  [form.set]
    stores a value that is not a file as its string. *)
Definition submit_form (st : State) (imageFile maskFile : option File) : Route.FormData :=
  [("action", Route.FormString (toString (action_input st)));
   ("prompt", Route.FormString (prompt_input st));
   ("size", Route.FormString (toString (size_input st)));
   ("model", Route.FormString (model_input st))]
  ++ match imageFile with Some f => [("image", Route.FormFile f)] | None => [] end
  ++ match maskFile with Some f => [("mask", Route.FormFile f)] | None => [] end.

(** The body [JSON.stringify({ prompt, size, model, action })]. *)
Definition submit_json (st : State) : Value :=
  VObj (property "prompt" (VStr (prompt_input st))
        ++ property "size" (size_input st)
        ++ property "model" (VStr (model_input st))
        ++ property "action" (action_input st)).

(** The request that [handleSubmit] sends, as the proxy receives it: a
    multipart form (the browser sets the content type, with a boundary of
    its choice) when [canUpload], a JSON body otherwise.  The handler reads
    a request only in the way its content type announces; the other way of
    reading it throws. *)
Definition submit_request (st : State) (imageFile maskFile : option File)
  (boundary : string) : Route.NextRequest :=
  if canUpload st then
    {| Route.content_type := Some ("multipart/form-data; boundary=" +:+ boundary);
       Route.formData := Ok (submit_form st imageFile maskFile);
       Route.json := Throw None |}
  else
    {| Route.content_type := Some "application/json";
       Route.formData := Throw None;
       Route.json := Ok (submit_json st) |}.

(** A submission answered by the proxy: [handleSubmit] on the response of
    [POST] to the request it sent. *)
Definition submit (env : Route.ProcessEnv) (OpenAI : string → Route.Images)
  (imageFile maskFile : option File) (boundary : string) (st : State) (w : World)
  : State * World :=
  handleSubmit
    (Ok (Route.POST env OpenAI (submit_request st imageFile maskFile boundary)).1)
    st w.

(** [{ ...it }]: the own enumerable properties of [it], in order. *)
Definition spread (it : Value) : list (string * Value) :=
  match it with
  | VObj fields => fields
  | VArr elements =>
      imap (λ i x, (number_to_string (Z.of_nat i), x)) elements
  | VStr s =>
      imap (λ i c, (number_to_string (Z.of_nat i), VStr (String c "")))
        (String.list_ascii_of_string s)
  | _ => []
  end.

(** [{ ...fields, key: v }]: an existing property keeps its place. *)
Fixpoint set_prop (key : string) (v : Value) (fields : list (string * Value))
  : list (string * Value) :=
  match fields with
  | [] => [(key, v)]
  | (k, x) :: rest =>
      if String.eqb k key then (k, v) :: rest else (k, x) :: set_prop key v rest
  end.

(** The callback of [parsed.map] in [loadGalleryFromStorage]. *)
Definition load_item (it : Value) : Outcome Value :=
  match get_prop it "tags" with
  | Ok it_tags =>
      Ok (VObj (set_prop "tags" (if isArray it_tags then it_tags else VArr [])
                  (spread it)))
  | Throw err => Throw err
  end.

Fixpoint load_items (parsed : list Value) : Outcome (list Value) :=
  match parsed with
  | [] => Ok []
  | it :: rest =>
      match load_item it with
      | Ok item =>
          match load_items rest with
          | Ok items => Ok (item :: items)
          | Throw err => Throw err
          end
      | Throw err => Throw err
      end
  end.

(** [loadGalleryFromStorage].  [stored] is [None] when [getItem] gives
    [null] or the empty string, and otherwise the outcome of [JSON.parse]
    on the text.  The items are returned as the objects they are, the cast
    to [GalleryItem[]] checking nothing. *)
Definition loadGalleryFromStorage (stored : option (Outcome Value)) : list Value :=
  match stored with
  | Some (Ok (VArr parsed)) =>
      match load_items parsed with
      | Ok items => items
      | Throw _ => []
      end
  | _ => []
  end.

(** What [getItem] and [JSON.parse] give for the value a world stores:
    the text written by [saveGalleryToStorage] is [JSON.stringify(items)]. *)
Definition stored_document (w : World) : option (Outcome Value) :=
  match localStorage w with
  | Some items => Some (Ok (VArr (List.map stringify_item items)))
  | None => None
  end.

(** The events of the page that touch the gallery or the form: typing in
    the form, "Use prompt", "Create", choosing a file to import, "Delete"
    and "Clear all". *)
Inductive Event :=
  | EditForm (newPrompt : string) (newAction newSize : Value)
      (newModel newTags : string)
  | UsePrompt (item : GalleryItem)
  | Create (imageFile maskFile : option File) (boundary : string)
  | ImportFile (file : option (Outcome Value))
  | Delete (target : string)
  | ClearAll.

Definition is_import (e : Event) : bool :=
  match e with ImportFile _ => true | _ => false end.

Section Page.

Variable env : Route.ProcessEnv.
Variable OpenAI : string → Route.Images.

Definition step (s : State * World) (e : Event) : State * World :=
  let '(st, w) := s in
  match e with
  | EditForm p a z m t =>
      ({| prompt_input := p; size_input := z; action_input := a;
          model_input := m; imageB64 := imageB64 st; loading := loading st;
          error := error st; gallery := gallery st; tagsInput := t |}, w)
  | UsePrompt item => (handleUsePrompt item st, w)
  | Create imageFile maskFile boundary =>
      submit env OpenAI imageFile maskFile boundary st w
  | ImportFile file => handleImportFile file st w
  | Delete target => deleteFromGallery target st w
  | ClearAll => clearGallery st w
  end.

Definition run (s : State * World) (events : list Event) : State * World :=
  fold_left step events s.

End Page.

(** *** Vocabulary for the further properties *)

(** The item with its optional [tags] made explicit. *)
Definition fill_tags (item : GalleryItem) : GalleryItem :=
  {| id := id item; createdAt := createdAt item; prompt := prompt item;
     action := action item; size := size item; model := model item;
     b64 := b64 item; tags := Some (tags_or_empty item) |}.

(** The storage holds the gallery (nothing stored counts for the empty
    gallery, which is what loading then gives). *)
Definition in_sync (st : State) (w : World) : Prop :=
  match localStorage w with
  | Some items => items = gallery st
  | None => gallery st = []
  end.

(** [localStorage.setItem] never refuses. *)
Definition roomy (w : World) : Prop := ∀ items, quota_ok w items = true.

(** [trimEnd] by recursion from the front. *)
Fixpoint trim_end (s : string) : string :=
  match s with
  | EmptyString => EmptyString
  | String c s' =>
      match trim_end s' with
      | EmptyString => if is_space c then EmptyString else String c EmptyString
      | r => String c r
      end
  end.

(** The files whose import goes through: an array none of whose entries
    is [null]. *)
Definition importable (file : option (Outcome Value)) : Prop :=
  ∃ entries, file = Some (Ok (VArr entries)) ∧ Forall readable entries.

(** An entry that brings its own id. *)
Definition has_id (x : Value) : Prop := readable x ∧ truthy (field x "id") = true.

(** What the merge of an import looks at in an item. *)
Definition item_key (item : GalleryItem) : string * bool := (id item, has_image item).

(** A tag as [parseTags] makes them: not empty, without white space at its
    ends, without comma or line feed. *)
Fixpoint separator_free (t : string) : bool :=
  match t with
  | EmptyString => true
  | String c t' => negb (is_tag_separator c) && separator_free t'
  end.

Definition tidy (t : string) : Prop :=
  t ≠ "" ∧ trim t = t ∧ separator_free t = true.

End Studio.

Example split_spaces_ex :
  Js.split_spaces " a  red fox " = [""; "a"; "red"; "fox"; ""].
Proof. reflexivity. Qed.

Example split_chars_ex :
  Js.split_chars (λ c, bool_decide (c = ","%char) || bool_decide (c = "010"%char))
    "a,,b," = ["a"; ""; "b"; ""].
Proof. reflexivity. Qed.

Example trim_ex : Js.trim "  Red Fox " = "Red Fox" ∧ Js.toLowerCase "Red Fox •" = "red fox •".
Proof. split; reflexivity. Qed.

Example includes_ex :
  Js.includes "a red fox" "d f" = true ∧ Js.includes "a red fox" "dog" = false
  ∧ Js.includes "" "" = true.
Proof. repeat split; reflexivity. Qed.

Example toString_ex :
  Js.toString (Js.VArr [Js.VNum (-12); Js.VNull; Js.VStr "a"; Js.VArr [Js.VBool true]])
  = "-12,,a,true".
Proof. reflexivity. Qed.

(** [String] of values read from JSON: an object prints as
    "[object Object]" unless it holds a property named [toString], on
    which the conversion throws, also inside an array. *)
Example String_ex :
  Js.String_ (Js.VObj [("id", Js.VNum 1)]) = Js.Ok "[object Object]"
  ∧ Js.String_ (Js.VObj [("toString", Js.VNum 1)])
    = Js.Throw (Some "Cannot convert object to primitive value")
  ∧ Js.String_ (Js.VArr [Js.VStr "a"; Js.VObj [("toString", Js.VNull)]])
    = Js.Throw (Some "Cannot convert object to primitive value")
  ∧ Js.String_ (Js.VArr [Js.VStr "a"; Js.VNull; Js.VNum 2]) = Js.Ok "a,,2".
Proof. repeat split; reflexivity. Qed.

(** * Properties of the request proxy *)

Section RouteProperties.
Import Js Route.

Variable env : ProcessEnv.
Variable OpenAI : string → Images.

Lemma getOpenAI_configured :
  key_configured env = true →
  ∃ apiKey, OPENAI_API_KEY env = Some apiKey ∧ getOpenAI env OpenAI = Ok (OpenAI apiKey).
Proof.
  unfold key_configured, getOpenAI.
  destruct (OPENAI_API_KEY env) as [k|]; [|discriminate].
  destruct (is_empty k); [discriminate|]. eauto.
Qed.

Lemma getOpenAI_missing :
  key_configured env = false →
  getOpenAI env OpenAI = Throw (Some "OPENAI_API_KEY is not set").
Proof.
  unfold key_configured, getOpenAI.
  destruct (OPENAI_API_KEY env) as [k|]; [|done].
  by destruct (is_empty k).
Qed.

(** A falsy value is no object, so [v || "text"] can be converted exactly
    when [v] can. *)
Lemma unconvertible_or_else v fallback :
  unconvertible (or_else v (VStr fallback)) = unconvertible v.
Proof. unfold or_else. destruct v as [| |[]|n|[|c s]|[|x l]|fields|f]; try done.
  simpl. by destruct (n =? 0). Qed.

Lemma model_includes_dalle_ok model :
  unconvertible model = false → model_includes_dalle model = Ok (is_dalle model).
Proof. intros H. unfold model_includes_dalle, String_. by rewrite H. Qed.

Lemma model_includes_dalle_throws model :
  unconvertible model = true →
  model_includes_dalle model
  = Throw (Some "Cannot convert object to primitive value").
Proof. intros H. unfold model_includes_dalle, String_. by rewrite H. Qed.

(** The entries of a form are strings and files, which have a text. *)
Lemma form_model_includes_dalle form :
  model_includes_dalle (or_else (form_get form "model") (VStr "gpt-image-1"))
  = Ok (is_dalle (or_else (form_get form "model") (VStr "gpt-image-1"))).
Proof.
  apply model_includes_dalle_ok. rewrite unconvertible_or_else.
  unfold form_get. by destruct (assoc "model" form) as [[]|].
Qed.

(** The handler is its plan, run against the service: nothing is called
    without a key, when the try block throws before the call or for a
    rejected form, and exactly the planned call is made otherwise. *)
Lemma POST_plan req :
  POST env OpenAI req =
  match getOpenAI env OpenAI with
  | Throw err => (error_response 500 (message_or err "Unknown error"), [])
  | Ok client =>
      match plan req with
      | Throws err => (error_response 500 (message_or err "Unknown error"), [])
      | Reject message => (error_response 400 message, [])
      | Invoke c => (conclude (call_outcome client c), [c])
      end
  end.
Proof.
  unfold POST, POST_try, plan, is_multipart, bind, lift.
  destruct (getOpenAI env OpenAI) as [client|err]; [|done].
  destruct (includes _ _).
  - destruct (formData req) as [form|err]; [|done].
    unfold plan_form. rewrite form_model_includes_dalle.
    destruct (is_string _ "edit").
    { destruct (form_get form "image"); try done.
      unfold call, ret, conclude; simpl. by destruct (edit client _). }
    destruct (is_string _ "variation").
    { destruct (form_get form "image"); try done.
      unfold call, ret, conclude; simpl. by destruct (createVariation client _). }
    unfold call, ret, conclude; simpl. by destruct (generate client _).
  - destruct (json req) as [body|err]; [|done].
    unfold plan_json.
    destruct (get_prop body "prompt") as [body_prompt|err] eqn:Hprompt; [|done].
    assert (get_prop body "size" = Ok (field body "size")) as ->
      by (destruct body; done).
    assert (get_prop body "model" = Ok (field body "model")) as Hmodel
      by (destruct body; done).
    rewrite Hmodel.
    assert (body_prompt = field body "prompt") as ->
      by (unfold field; by rewrite Hprompt).
    destruct (unconvertible (field body "model")) eqn:Hconv.
    + rewrite model_includes_dalle_throws
        by (by rewrite unconvertible_or_else).
      done.
    + rewrite model_includes_dalle_ok by (by rewrite unconvertible_or_else).
      unfold json_field_or, generate_params, call, ret, conclude; simpl.
      by destruct (generate client _).
Qed.


Lemma plan_form_readable form err : plan_form form ≠ Throws err.
Proof. unfold plan_form. by repeat case_match. Qed.

(** The try block throws before any call exactly when the body cannot be
    read or the model of a JSON body cannot be converted. *)
Lemma plan_throws req :
  (∃ err, plan req = Throws err) ↔
  body_unreadable req = true ∨ model_unconvertible req = true.
Proof.
  unfold plan, body_unreadable, model_unconvertible.
  destruct (is_multipart req).
  - destruct (formData req) as [form|err]; [|split; eauto].
    split; [|by intros [|]]. intros [err H]. by apply plan_form_readable in H.
  - destruct (json req) as [body|err]; [|split; eauto].
    unfold plan_json.
    destruct body as [| |b|n|t|elements|fields|f]; simpl;
      try (split; [by intros [? ?] | by intros [|]]);
      try (split; eauto; fail).
    destruct (unconvertible (field (VObj fields) "model")) eqn:Hconv.
    + split; eauto.
    + split; [by intros [? ?] | by intros [|]].
Qed.

Lemma first_b64_image res s : first_b64 res = Some s ↔ first_image_is res s.
Proof.
  unfold first_b64, first_image_is. split.
  - destruct (data res) as [[|img others]|]; try done. eauto.
  - by intros (img & others & -> & ?).
Qed.

Lemma plan_form_reject form message :
  plan_form form = Reject message →
  (is_string (or_else (form_get form "action") (VStr "generate")) "edit" = true
   ∨ is_string (or_else (form_get form "action") (VStr "generate")) "variation" = true)
  ∧ ∀ f, form_get form "image" ≠ VFile f.
Proof.
  unfold plan_form.
  destruct (is_string _ "edit") eqn:He.
  { destruct (form_get form "image"); try done; intros _; split; auto. }
  destruct (is_string _ "variation") eqn:Hv; [|done].
  destruct (form_get form "image"); try done; intros _; split; auto.
Qed.

Lemma conclude_cases (o : Outcome ImagesResponse) :
  (∃ s res, s ≠ "" ∧ o = Ok res ∧ first_b64 res = Some s
            ∧ conclude o = json_response 200 [("content-type", "application/json")]
                             (b64_body s))
  ∨ (∃ message, conclude o = error_response 500 message
                ∧ ((∃ e, o = Throw e)
                   ∨ ∃ res, o = Ok res
                            ∧ (first_b64 res = None ∨ first_b64 res = Some ""))).
Proof.
  destruct o as [res|e]; simpl; [|right; eauto].
  unfold b64_response.
  destruct (first_b64 res) as [[|c s]|] eqn:Hb; simpl.
  - right. eexists. split; [done|]. right. eauto.
  - left. exists (String c s), res. done.
  - right. eexists. split; [done|]. right. eauto.
Qed.

(** A request that asks for an edit or a variation and carries no image
    file never reaches the service, with or without an API key. *)
Lemma no_call_without_image req :
  is_multipart req = true →
  asks_edit_or_variation req →
  carries_image_file req = false →
  (POST env OpenAI req).2 = [].
Proof.
  intros Hmp Hact Himg. rewrite POST_plan.
  destruct (getOpenAI env OpenAI) as [client|]; [|done].
  unfold asks_edit_or_variation, requested_action, carries_image_file, plan in *.
  rewrite Hmp in *.
  destruct (formData req) as [form|err]; [|done].
  unfold plan_form.
  destruct (is_string _ "edit").
  { by destruct (form_get form "image"). }
  destruct Hact as [|Hv]; [discriminate|]. rewrite Hv.
  by destruct (form_get form "image").
Qed.

(** C1, amended.  A multipart request whose form can be read, under a
    configured API key, that asks for an edit or a variation and carries
    no image file, is answered with status 400 and a body [{ error }],
    and no call to the image service is made. *)
Theorem multipart_edit_variation_needs_image req :
  key_configured env = true →
  is_multipart req = true →
  body_unreadable req = false →
  asks_edit_or_variation req →
  carries_image_file req = false →
  rejected_without_call (POST env OpenAI req).
Proof.
  intros Hkey Hmp Hbody Hact Himg.
  destruct (getOpenAI_configured Hkey) as (apiKey & _ & Hclient).
  rewrite POST_plan, Hclient.
  unfold asks_edit_or_variation, requested_action, carries_image_file,
    body_unreadable, plan in *.
  rewrite Hmp in *.
  destruct (formData req) as [form|err]; [|discriminate].
  unfold plan_form, rejected_without_call, error_response, error_body.
  destruct (is_string _ "edit").
  { destruct (form_get form "image"); try discriminate; simpl; eauto. }
  destruct Hact as [|Hv]; [discriminate|]. rewrite Hv.
  destruct (form_get form "image"); try discriminate; simpl; eauto.
Qed.

(** C6, amended.  Every request is answered in exactly one of three ways:
    status 200 with [{ b64: s }], [s] the non-empty [b64_json] of the
    first image the one service call returned; status 400 with
    [{ error }] and no call; status 500 with [{ error }].  The status is
    500 exactly when the API key is missing, the body of the request
    cannot be read, the model of a JSON body cannot be converted to a
    string, the service call throws, or its first image has no non-empty
    [b64_json]. *)
Theorem POST_response_normalised req :
  let result := POST env OpenAI req in
  let client := service_of env OpenAI in
  ((∃ s c res img others,
      s ≠ "" ∧ call_outcome client c = Ok res
      ∧ data res = Some (img :: others) ∧ b64_json img = Some s
      ∧ status result.1 = 200 ∧ body result.1 = VObj [("b64", VStr s)]
      ∧ result.2 = [c])
   ∨ (∃ message,
        status result.1 = 400 ∧ body result.1 = VObj [("error", VStr message)]
        ∧ result.2 = [])
   ∨ (∃ message,
        status result.1 = 500 ∧ body result.1 = VObj [("error", VStr message)]))
  ∧ (status result.1 = 500 ↔
       key_configured env = false ∨ body_unreadable req = true
       ∨ model_unconvertible req = true
       ∨ some_call_threw client result.2
       ∨ some_call_without_image client result.2).
Proof.
  intros result client. subst result client.
  rewrite POST_plan.
  destruct (key_configured env) eqn:Hkey.
  2:{ rewrite (getOpenAI_missing Hkey). simpl. split; [eauto 10|]. split; auto. }
  destruct (getOpenAI_configured Hkey) as (apiKey & Hk & ->).
  unfold service_of. rewrite Hk. simpl.
  pose proof (plan_throws req) as Hun.
  destruct (plan req) as [err|message|c] eqn:Hplan.
  - assert (body_unreadable req = true ∨ model_unconvertible req = true) as Hwhy
      by (apply Hun; eauto).
    simpl. split; [eauto 10|]. split; [|done]. intros _.
    destruct Hwhy; auto.
  - assert (body_unreadable req = false ∧ model_unconvertible req = false)
      as [-> ->].
    { destruct (body_unreadable req), (model_unconvertible req); try done;
        destruct Hun as [_ [e He]]; auto; discriminate. }
    simpl. split; [eauto 10|].
    unfold some_call_threw, some_call_without_image.
    split; [discriminate|].
    intros [|[|[|[(c & e & Hin & _)|(c & res & Hin & _)]]]];
      try discriminate; by apply elem_of_nil in Hin.
  - assert (body_unreadable req = false ∧ model_unconvertible req = false)
      as [-> ->].
    { destruct (body_unreadable req), (model_unconvertible req); try done;
        destruct Hun as [_ [e He]]; auto; discriminate. }
    unfold some_call_threw, some_call_without_image.
    destruct (conclude_cases (call_outcome (OpenAI apiKey) c))
      as [(s & res & Hs & Ho & Hb & ->)|(message & -> & Hwhy)]; simpl.
    + split.
      { left. apply first_b64_image in Hb as (img & others & Hdata & Himg).
        exists s, c, res, img, others. done. }
      split; [discriminate|].
      intros [|[|[|[(c' & e & Hin & Hc')|(c' & res' & Hin & Hc' & Hno)]]]];
        try discriminate; apply list_elem_of_singleton in Hin as ->.
      * congruence.
      * rewrite Ho in Hc'. injection Hc' as <-.
        apply first_b64_image in Hb. by apply Hno in Hb.
    + split; [eauto 10|].
      split; [|done]. intros _.
      destruct Hwhy as [[e He]|(res & Ho & Hno)].
      * do 3 right; left. exists c, e. split; [apply list_elem_of_singleton|]; done.
      * do 4 right. exists c, res.
        split; [by apply list_elem_of_singleton|]. split; [done|].
        intros s Hs%first_b64_image. rewrite Hs in Hno.
        destruct Hno as [|Hno]; [discriminate|]. by injection Hno.
Qed.

Lemma plan_json_request req :
  is_multipart req = false →
  plan req = match json req with
             | Ok body => plan_json body
             | Throw err => Throws err
             end.
Proof. intros Hmp. unfold plan. by rewrite Hmp. Qed.

(** C10, amended.  For a request whose content type is not
    multipart/form-data the handler never answers with the validation
    status 400, calls nothing but generate, and gives the same result
    whatever the [action] field of the JSON body is set to.  When the API
    key is configured, the body is readable JSON and its model can be
    converted to a string, it makes exactly one call, a generate call with
    the body's [model], [prompt] and [size] (or their defaults); in every
    other case it answers 500 and calls nothing. *)
Theorem json_body_always_generates req :
  is_multipart req = false →
  status (POST env OpenAI req).1 ≠ 400
  ∧ Forall is_generate_call (POST env OpenAI req).2
  ∧ (∀ a, POST env OpenAI (with_json_action a req) = POST env OpenAI req)
  ∧ (key_configured env = true ∧ body_unreadable req = false
     ∧ model_unconvertible req = false →
     ∃ body,
       json req = Ok body
       ∧ let p := generate_params (json_field_or body "model" "gpt-image-1")
                    (json_field_or body "prompt" "")
                    (json_field_or body "size" "1024x1024") in
         POST env OpenAI req
         = (conclude (generate (service_of env OpenAI) p), [CallGenerate p]))
  ∧ (key_configured env = false ∨ body_unreadable req = true
     ∨ model_unconvertible req = true →
     status (POST env OpenAI req).1 = 500 ∧ (POST env OpenAI req).2 = []).
Proof.
  intros Hmp.
  assert (∀ a, plan (with_json_action a req) = plan req) as Haction.
  { intros a. rewrite !plan_json_request by done.
    unfold with_json_action; simpl.
    destruct (json req) as [[]|]; try done. }
  split; [|split; [|split; [|split]]].
  - rewrite POST_plan, plan_json_request by done.
    destruct (getOpenAI env OpenAI) as [client|]; [|done].
    destruct (json req) as [body|]; [|done].
    unfold plan_json. destruct (get_prop body "prompt"); [|done].
    destruct (unconvertible _); [done|]. simpl.
    destruct (conclude_cases (generate client
                (generate_params (json_field_or body "model" "gpt-image-1")
                   (json_field_or body "prompt" "")
                   (json_field_or body "size" "1024x1024"))))
      as [(s & res & _ & _ & _ & ->)|(message & -> & _)]; done.
  - rewrite POST_plan, plan_json_request by done.
    destruct (getOpenAI env OpenAI) as [client|]; [|constructor].
    destruct (json req) as [body|]; [|constructor].
    unfold plan_json. destruct (get_prop body "prompt"); [|constructor].
    destruct (unconvertible _); [constructor|].
    simpl. by repeat constructor.
  - intros a. by rewrite !POST_plan, Haction.
  - intros (Hkey & Hbody & Hmodel).
    destruct (getOpenAI_configured Hkey) as (apiKey & Hk & Hclient).
    unfold body_unreadable in Hbody. unfold model_unconvertible in Hmodel.
    rewrite Hmp in Hbody, Hmodel.
    destruct (json req) as [body|] eqn:Hjson; [|discriminate].
    exists body. split; [done|]. cbv zeta.
    rewrite POST_plan, Hclient, plan_json_request, Hjson by done.
    unfold service_of. rewrite Hk. unfold plan_json. rewrite Hmodel.
    by destruct body.
  - intros Hwhy. rewrite POST_plan.
    destruct (key_configured env) eqn:Hkey.
    2:{ by rewrite (getOpenAI_missing Hkey). }
    destruct (getOpenAI_configured Hkey) as (apiKey & Hk & ->).
    destruct Hwhy as [|Hwhy]; [discriminate|].
    apply plan_throws in Hwhy as [err ->]. done.
Qed.

End RouteProperties.

Section RouteExamples.
Import Js Route.

(** What the handler does with a JSON body that asks for an edit: it calls
    generate and answers 200. *)
Example json_edit_request_result :
  POST sample_env steady_service json_edit_request
  = (json_response 200 [("content-type", "application/json")] (b64_body "aGVsbG8="),
     [CallGenerate {| gen_model := VStr "gpt-image-1"; gen_prompt := VStr "a red fox";
                      gen_size := VStr "512x512"; gen_response_format := None |}]).
Proof. reflexivity. Qed.

(** C1, as stated, fails.  A JSON body whose action is 'edit' carries no
    image file, yet it is not answered with a 400 validation error: the
    handler calls generate. *)
Lemma json_edit_request_not_rejected :
  ¬ (asks_edit_or_variation json_edit_request →
     carries_image_file json_edit_request = false →
     rejected_without_call (POST sample_env steady_service json_edit_request)).
Proof.
  intros H.
  destruct H as (Hstatus & _); [left; reflexivity | reflexivity |].
  rewrite json_edit_request_result in Hstatus. discriminate Hstatus.
Qed.

Lemma multipart_edit_variation_needs_image_witness :
  asks_edit_or_variation edit_form_without_image
  ∧ rejected_without_call (POST sample_env steady_service edit_form_without_image).
Proof.
  split; [left; reflexivity|].
  apply (multipart_edit_variation_needs_image sample_env steady_service
           edit_form_without_image);
    [reflexivity | reflexivity | reflexivity | left; reflexivity | reflexivity].
Defined.

Example broken_json_request_result :
  POST sample_env steady_service broken_json_request
  = (error_response 500 "Unexpected end of JSON input", []).
Proof. reflexivity. Qed.

(** C6, as stated, fails.  A body that is not JSON is answered with status
    500 although the API key is set and no call to the service was made,
    so that none threw and none returned without an image. *)
Lemma broken_json_500_has_no_claimed_cause :
  ¬ (status (POST sample_env steady_service broken_json_request).1 = 500 ↔
       key_configured sample_env = false
       ∨ some_call_threw (service_of sample_env steady_service)
           (POST sample_env steady_service broken_json_request).2
       ∨ some_call_without_image (service_of sample_env steady_service)
           (POST sample_env steady_service broken_json_request).2).
Proof.
  rewrite broken_json_request_result. intros [H _].
  destruct H as [H|[(c & e & Hin & _)|(c & res & Hin & _)]];
    [reflexivity | discriminate H | |]; by apply elem_of_nil in Hin.
Qed.

Example json_request_with_object_model_result :
  POST sample_env steady_service json_request_with_object_model
  = (error_response 500 "Cannot convert object to primitive value", []).
Proof. reflexivity. Qed.

(** C10, as stated, fails.  A JSON body whose model is an object holding a
    property named [toString] is parsed, the API key is set, and yet no
    generate call is made: [String(model)] throws and the request is
    answered 500. *)
Lemma json_body_without_generate_call :
  ¬ (is_multipart json_request_with_object_model = false →
     ∃ p, CallGenerate p
          ∈ (POST sample_env steady_service json_request_with_object_model).2).
Proof.
  intros H. destruct H as [p Hp]; [reflexivity|].
  rewrite json_request_with_object_model_result in Hp.
  by apply elem_of_nil in Hp.
Qed.

Lemma json_body_always_generates_witness :
  is_string (requested_action json_edit_request) "edit" = true
  ∧ status (POST sample_env steady_service json_edit_request).1 ≠ 400
  ∧ Forall is_generate_call (POST sample_env steady_service json_edit_request).2
  ∧ (POST sample_env steady_service json_edit_request).2 ≠ [].
Proof.
  split; [reflexivity|].
  destruct (json_body_always_generates sample_env steady_service json_edit_request)
    as (Hstatus & Hcalls & _); [reflexivity|].
  split; [exact Hstatus|]. split; [exact Hcalls|].
  rewrite json_edit_request_result. discriminate.
Defined.

End RouteExamples.

(** * Properties of the gallery: search *)

Section Search.
Import Js Studio.

Lemma append_cons c s t : String c s +:+ t = String c (s +:+ t).
Proof. reflexivity. Qed.

Lemma prefix_app q s : String.prefix q s = true ↔ ∃ after, s = q +:+ after.
Proof.
  revert s. induction q as [|a q IH]; intros s; simpl.
  - split; [eauto|]. by destruct s.
  - destruct s as [|b s]; simpl.
    + split; [done|]. by intros [after H].
    + destruct (Ascii.ascii_dec a b) as [->|Hne].
      * rewrite IH. split; intros [after H]; exists after;
          rewrite append_cons in *; congruence.
      * split; [done|]. intros [after H]. rewrite append_cons in H. congruence.
Qed.

Lemma includes_nil q : includes "" q = String.prefix q "".
Proof. simpl. apply orb_false_r. Qed.

Lemma includes_cons c s q :
  includes (String c s) q = String.prefix q (String c s) || includes s q.
Proof. reflexivity. Qed.

(** [includes] decides the occurrence of a substring. *)
Lemma includes_substring s q : includes s q = true ↔ is_substring q s.
Proof.
  unfold is_substring. induction s as [|c s IH].
  - rewrite includes_nil, prefix_app. split.
    + intros [after H]. by exists "", after.
    + intros ([|b before] & after & H); [eauto | done].
  - rewrite includes_cons, orb_true_iff, prefix_app, IH. split.
    + intros [[after H]|(before & after & H)].
      * by exists "", after.
      * exists (String c before), after. by rewrite append_cons, H.
    + intros ([|b before] & after & H).
      * left. eauto.
      * right. exists before, after. rewrite append_cons in H. congruence.
Qed.

Lemma is_empty_true s : is_empty s = true ↔ s = "".
Proof. by destruct s. Qed.


End Search.


(** * Properties of the gallery: size, ids and tags *)

Section GalleryStore.
Import Js Studio.

(** Adding puts the new item first and keeps at most 100 items, dropping
    from the end. *)
Lemma addToGallery_cap item st w :
  gallery (addToGallery item st w).1 = take 100 (item :: gallery st)
  ∧ (length (gallery (addToGallery item st w).1) ≤ 100)%nat.
Proof.
  split; [done|].
  change (gallery (addToGallery item st w).1) with (take 100 (item :: gallery st)).
  rewrite length_take. lia.
Qed.

Lemma deleteFromGallery_length target st w :
  (length (gallery (deleteFromGallery target st w).1) ≤ length (gallery st))%nat.
Proof.
  change (gallery (deleteFromGallery target st w).1)
    with (List.filter (λ g, negb (bool_decide (id g = target))) (gallery st)).
  generalize (gallery st). intros l.
  induction l as [|x l IH]; simpl; [done|]. destruct (negb _); simpl; lia.
Qed.

Lemma clearGallery_empty st w : gallery (clearGallery st w).1 = [].
Proof. reflexivity. Qed.

Lemma parseTags_length input : (length (parseTags input) ≤ 20)%nat.
Proof. unfold parseTags. rewrite length_take. lia. Qed.

(** The item a successful submission adds has at most 20 tags. *)
Lemma handleSubmit_tags fetched st w :
  Forall (λ item, (length (tags_or_empty item) ≤ 20)%nat) (gallery st) →
  Forall (λ item, (length (tags_or_empty item) ≤ 20)%nat)
    (gallery (handleSubmit fetched st w).1).
Proof.
  intros Hprev. unfold handleSubmit, bind, lift.
  destruct fetched as [res|err]; [|done].
  destruct (negb _).
  { by destruct (String_ _). }
  destruct (get_prop (Route.body res) "b64") as [v|err]; [|done].
  simpl. constructor; [apply parseTags_length | by apply Forall_take].
Qed.

(** The merge of an import: the incoming items whose id is not yet in the
    gallery, in their order, followed by the gallery as it was. *)
Lemma merge_new_before_existing incoming prev :
  ∃ new, merge incoming prev = new ++ prev
         ∧ sublist new incoming
         ∧ ∀ i, i ∈ new → id i ∉ ids prev.
Proof.
  unfold merge.
  eexists. split; [reflexivity|]. split.
  - induction incoming as [|x l IH]; simpl; [done|].
    destruct (negb _); by constructor.
  - intros i Hi. apply list_elem_of_In, filter_In in Hi as [_ Hi].
    apply negb_true_iff, bool_decide_eq_false in Hi.
    intros Hin. apply Hi, elem_of_list_to_set. done.
Qed.

(** Ids stay distinct when they are distinct in the gallery and among the
    incoming items. *)
Lemma merge_NoDup incoming prev :
  NoDup (ids incoming) → NoDup (ids prev) → NoDup (ids (merge incoming prev)).
Proof.
  intros Hin Hprev.
  destruct (merge_new_before_existing incoming prev) as (new & -> & Hsub & Hfresh).
  unfold ids in *. rewrite map_app. apply NoDup_app. split; [|split; [|done]].
  - apply (sublist_NoDup (map id new) (map id incoming)); [exact Hin|].
    clear -Hsub. induction Hsub; simpl; by constructor.
  - intros x Hx Hx'. apply list_elem_of_fmap in Hx as (i & -> & Hi).
    by apply (Hfresh i).
Qed.

End GalleryStore.

(** C2: the code exceeds the bound.  Importing a file of 101 entries with
    distinct ids into an empty gallery leaves 101 items in the gallery:
    import merges without the [slice(0, 100)] that add applies. *)
Theorem import_exceeds_gallery_cap :
  length (Studio.gallery (Studio.import Studio.file_of_101 Studio.initial)) = 101%nat.
Proof. vm_compute. reflexivity. Qed.

(** C3: the code leaves a duplicate.  Importing a file that holds the same
    id twice into an empty gallery yields two items with that id: only ids
    already in the gallery are filtered out. *)
Theorem import_keeps_twin_ids :
  Studio.ids (Studio.gallery (Studio.import Studio.file_with_twins Studio.initial))
  = ["a"; "a"]
  ∧ ¬ NoDup (Studio.ids (Studio.gallery
               (Studio.import Studio.file_with_twins Studio.initial))).
Proof.
  assert (Studio.ids (Studio.gallery
            (Studio.import Studio.file_with_twins Studio.initial)) = ["a"; "a"]) as E
    by (vm_compute; reflexivity).
  split; [exact E|]. rewrite E. intros H.
  apply NoDup_cons in H as [H _]. apply H. by left.
Qed.

(** C4: the code exceeds the bound.  Importing an entry with 21 tags puts
    an item with 21 tags in the gallery: import copies the tags without the
    [slice(0, 20)] of [parseTags]. *)
Theorem import_keeps_21_tags :
  List.map (λ item, length (Studio.tags_or_empty item))
    (Studio.gallery (Studio.import Studio.file_with_21_tags Studio.initial))
  = [21%nat].
Proof. vm_compute. reflexivity. Qed.

(** * Properties of the gallery: import and export *)

Section ImportExport.
Import Js Studio.

(** Stepping through a [let*]. *)
Lemma bind_ok {A B} (m : Step A) (k : A → Step B) w a w' :
  m w = (Ok a, w') → bind m k w = k a w'.
Proof. intros H. unfold bind. by rewrite H. Qed.

Lemma bind_throw {A B} (m : Step A) (k : A → Step B) w err w' :
  m w = (Throw err, w') → bind m k w = (Throw err, w').
Proof. intros H. unfold bind. by rewrite H. Qed.

Lemma unconvertible_truthy v : unconvertible v = true → truthy v = true.
Proof. by destruct v. Qed.

Lemma String_ok v : unconvertible v = false → String_ v = Ok (toString v).
Proof. intros H. unfold String_. by rewrite H. Qed.

Lemma String_throws v :
  unconvertible v = true →
  String_ v = Throw (Some "Cannot convert object to primitive value").
Proof. intros H. unfold String_. by rewrite H. Qed.

Lemma map_String_ok ts :
  existsb unconvertible ts = false → map_String ts = Ok (List.map toString ts).
Proof.
  induction ts as [|t ts IH]; simpl; [done|].
  intros [Ht Hts]%orb_false_iff. by rewrite (String_ok _ Ht), IH.
Qed.

Lemma map_String_throws ts :
  existsb unconvertible ts = true →
  map_String ts = Throw (Some "Cannot convert object to primitive value").
Proof.
  induction ts as [|t ts IH]; simpl; [done|].
  destruct (unconvertible t) eqn:Ht; simpl.
  - by rewrite (String_throws _ Ht).
  - intros Hts. by rewrite (String_ok _ Ht), IH.
Qed.

(** [x.name || fallback()] on an entry whose properties can be read. *)
Lemma prop_or_readable x name fallback w :
  readable x →
  prop_or x name fallback w
  = if truthy (field x name) then (Ok (field x name), w) else fallback w.
Proof.
  intros [Hnull Hundef]. unfold prop_or, bind, lift, ret, field.
  destruct x; try done; simpl; by destruct (truthy _).
Qed.

Lemma convertible_readable x : convertible x = true → readable x.
Proof. destruct x; try done; by split. Qed.

(** The pieces of [convertible]. *)
Lemma convertible_fields x :
  convertible x = true →
  unconvertible (field x "id") = false
  ∧ unconvertible (field x "createdAt") = false
  ∧ unconvertible (field x "prompt") = false
  ∧ unconvertible (field x "model") = false
  ∧ unconvertible (field x "b64") = false
  ∧ match field x "tags" with
    | VArr ts => existsb unconvertible ts = false
    | _ => True
    end.
Proof.
  intros H.
  assert (negb (unconvertible (field x "id"))
          && negb (unconvertible (field x "createdAt"))
          && negb (unconvertible (field x "prompt"))
          && negb (unconvertible (field x "model"))
          && negb (unconvertible (field x "b64"))
          && match field x "tags" with
             | VArr ts => negb (existsb unconvertible ts)
             | _ => true
             end = true) as H'.
  { by destruct x. }
  clear H. rewrite !andb_true_iff, !negb_true_iff in H'.
  destruct H' as (((((? & ?) & ?) & ?) & ?) & Ht).
  repeat split; try done.
  destruct (field x "tags"); try done. by apply negb_true_iff.
Qed.

Lemma prop_or_const x name fallback w :
  readable x →
  prop_or x name (ret (VStr fallback)) w
  = (Ok (or_else (field x name) (VStr fallback)), w).
Proof.
  intros H. rewrite prop_or_readable by done. unfold or_else.
  by destruct (truthy (field x name)).
Qed.

Lemma String_or_else v fallback :
  unconvertible v = false →
  String_ (or_else v (VStr fallback)) = Ok (toString (or_else v (VStr fallback))).
Proof. intros H. apply String_ok. by rewrite unconvertible_or_else. Qed.

Ltac step_ok tac := erewrite bind_ok; [|tac].

(** The import callback on an entry it can convert. *)
Lemma import_entry_convertible x w :
  convertible x = true →
  import_entry x w = (Ok (imported x w), after_entry x w).
Proof.
  intros H. pose proof (convertible_readable x H) as Hread.
  destruct (convertible_fields x H)
    as (Hid & Hcreated & Hprompt & Hmodel & Hb64 & Htags).
  assert (get_prop x "tags" = Ok (field x "tags")) as Hget.
  { unfold field. destruct Hread. by destruct x. }
  assert (match field x "tags" with
          | VArr ts => lift (map_String ts)
          | _ => ret []
          end
          = ret (match field x "tags" with
                 | VArr ts => List.map toString ts
                 | _ => []
                 end)) as Htexts.
  { destruct (field x "tags"); try done. by rewrite map_String_ok. }
  unfold import_entry, imported, after_entry, or_else.
  destruct (truthy (field x "id")) eqn:Tid,
           (truthy (field x "createdAt")) eqn:Tc.
  all: step_ok ltac:(rewrite prop_or_readable by done; rewrite Tid; reflexivity).
  all: step_ok ltac:(unfold lift; first [by rewrite String_ok | reflexivity]).
  all: step_ok ltac:(rewrite prop_or_readable by done; rewrite Tc; reflexivity).
  all: step_ok ltac:(unfold lift; first [by rewrite String_ok | reflexivity]).
  all: step_ok ltac:(by apply prop_or_const).
  all: step_ok ltac:(unfold lift; by rewrite String_or_else).
  all: step_ok ltac:(by apply prop_or_const).
  all: step_ok ltac:(by apply prop_or_const).
  all: step_ok ltac:(by apply prop_or_const).
  all: step_ok ltac:(unfold lift; by rewrite String_or_else).
  all: step_ok ltac:(by apply prop_or_const).
  all: step_ok ltac:(unfold lift; by rewrite String_or_else).
  all: step_ok ltac:(unfold lift; by rewrite Hget).
  all: rewrite Htexts.
  all: step_ok ltac:(reflexivity).
  all: unfold ret, or_else; destruct w; simpl.
  all: by destruct (field x "tags").
Qed.

Lemma readable_or_not x : readable x ∨ x = VNull ∨ x = VUndefined.
Proof. destruct x; auto; by left. Qed.

Lemma String_or_else_throws v fallback :
  unconvertible v = true →
  String_ (or_else v (VStr fallback))
  = Throw (Some "Cannot convert object to primitive value").
Proof. intros H. apply String_throws. by rewrite unconvertible_or_else. Qed.

(** Reading the id or the date of an entry draws a fresh one when the entry
    has none; the storage is not touched. *)
Lemma prop_or_fresh x name (fresh : Step string) w text w0 :
  readable x →
  fresh w = (Ok text, w0) →
  localStorage w0 = localStorage w → quota_ok w0 = quota_ok w →
  ∃ w1,
    prop_or x name (let* t := fresh in ret (VStr t)) w
    = (Ok (or_else (field x name) (VStr text)), w1)
    ∧ localStorage w1 = localStorage w ∧ quota_ok w1 = quota_ok w.
Proof.
  intros Hread Hfresh Hs Hq. rewrite prop_or_readable by done.
  unfold or_else. destruct (truthy (field x name)).
  - by exists w.
  - exists w0. unfold bind. by rewrite Hfresh.
Qed.

Ltac step_throw tac := erewrite bind_throw; [|tac].

(** The import callback throws on every other entry, with a message, and
    leaves the storage alone. *)
Lemma import_entry_throws x w :
  convertible x = false →
  ∃ message w',
    import_entry x w = (Throw (Some message), w')
    ∧ localStorage w' = localStorage w ∧ quota_ok w' = quota_ok w
    ∧ message ≠ "".
Proof.
  intros H.
  destruct (readable_or_not x) as [Hread|[->| ->]];
    [|eexists _, w; by repeat split..].
  assert (get_prop x "tags" = Ok (field x "tags")) as Hget.
  { unfold field. destruct Hread. by destruct x. }
  assert (∀ w1 : World,
            localStorage w1 = localStorage w → quota_ok w1 = quota_ok w →
            ∃ message w',
              (@Throw GalleryItem
                 (Some "Cannot convert object to primitive value"), w1)
              = (Throw (Some message), w')
              ∧ localStorage w' = localStorage w ∧ quota_ok w' = quota_ok w
              ∧ message ≠ "") as Hthrown.
  { intros w1 Hs Hq. by eexists _, w1. }
  destruct (prop_or_fresh x "id" generateId w _ _ Hread eq_refl eq_refl eq_refl)
    as (w1 & E1 & S1 & Q1).
  unfold import_entry. rewrite (bind_ok _ _ _ _ _ E1).
  destruct (unconvertible (field x "id")) eqn:Uid.
  { step_throw ltac:(unfold lift; by rewrite String_or_else_throws). by apply Hthrown. }
  step_ok ltac:(unfold lift; by rewrite String_or_else).
  destruct (prop_or_fresh x "createdAt" toISOString_now w1 _ _ Hread
              eq_refl eq_refl eq_refl) as (w2 & E2 & S2 & Q2).
  rewrite (bind_ok _ _ _ _ _ E2).
  assert (localStorage w2 = localStorage w) as S2' by congruence.
  assert (quota_ok w2 = quota_ok w) as Q2' by congruence.
  destruct (unconvertible (field x "createdAt")) eqn:Ucreated.
  { step_throw ltac:(unfold lift; by rewrite String_or_else_throws). by apply Hthrown. }
  step_ok ltac:(unfold lift; by rewrite String_or_else).
  step_ok ltac:(by apply prop_or_const).
  destruct (unconvertible (field x "prompt")) eqn:Uprompt.
  { step_throw ltac:(unfold lift; by rewrite String_or_else_throws). by apply Hthrown. }
  step_ok ltac:(unfold lift; by rewrite String_or_else).
  step_ok ltac:(by apply prop_or_const).
  step_ok ltac:(by apply prop_or_const).
  step_ok ltac:(by apply prop_or_const).
  destruct (unconvertible (field x "model")) eqn:Umodel.
  { step_throw ltac:(unfold lift; by rewrite String_or_else_throws). by apply Hthrown. }
  step_ok ltac:(unfold lift; by rewrite String_or_else).
  step_ok ltac:(by apply prop_or_const).
  destruct (unconvertible (field x "b64")) eqn:Ub64.
  { step_throw ltac:(unfold lift; by rewrite String_or_else_throws). by apply Hthrown. }
  step_ok ltac:(unfold lift; by rewrite String_or_else).
  step_ok ltac:(unfold lift; by rewrite Hget).
  assert (∃ ts, field x "tags" = VArr ts ∧ existsb unconvertible ts = true)
    as (ts & Htags & Uts).
  { destruct x; try (by destruct Hread); simpl in H;
      try (unfold field in *; simpl in *; congruence).
    unfold field in *. simpl in *.
    rewrite Uid, Ucreated, Uprompt, Umodel, Ub64 in H. simpl in H.
    destruct (default VUndefined (assoc "tags" fields)); try done.
    apply negb_false_iff in H. eauto. }
  rewrite Htags.
  step_throw ltac:(unfold lift; by rewrite map_String_throws). by apply Hthrown.
Qed.

Lemma after_entry_storage x w :
  localStorage (after_entry x w) = localStorage w
  ∧ quota_ok (after_entry x w) = quota_ok w.
Proof. done. Qed.

(** Import of entries: all of them are converted, in their order, or the
    first that cannot be converted aborts the import. *)
Lemma import_entries_convertible entries w :
  forallb convertible entries = true →
  ∃ w', import_entries entries w = (Ok (imported_items entries w), w')
        ∧ localStorage w' = localStorage w ∧ quota_ok w' = quota_ok w.
Proof.
  revert w. induction entries as [|x l IH]; intros w; simpl.
  - by exists w.
  - intros [Hx Hl]%andb_true_iff.
    destruct (IH (after_entry x w) Hl) as (w' & E & Hs & Hq).
    exists w'. split; [|done].
    rewrite (bind_ok _ _ _ _ _ (import_entry_convertible x w Hx)).
    by rewrite (bind_ok _ _ _ _ _ E).
Qed.

Lemma import_entries_throws entries w :
  forallb convertible entries = false →
  ∃ message w',
    import_entries entries w = (Throw (Some message), w')
    ∧ localStorage w' = localStorage w ∧ quota_ok w' = quota_ok w
    ∧ message ≠ "".
Proof.
  revert w. induction entries as [|x l IH]; intros w; simpl; [done|].
  destruct (convertible x) eqn:Hx; simpl.
  - intros Hl.
    destruct (IH (after_entry x w) Hl) as (message & w' & E & Hs & Hq & Hm).
    exists message, w'. split; [|done].
    rewrite (bind_ok _ _ _ _ _ (import_entry_convertible x w Hx)).
    by rewrite (bind_throw _ _ _ _ _ E).
  - intros _.
    destruct (import_entry_throws x w Hx) as (message & w' & E & Hs & Hq & Hm).
    exists message, w'. split; [|done].
    by rewrite (bind_throw _ _ _ _ _ E).
Qed.

(** A [null] among the entries aborts the import. *)
Lemma unreadable_entries entries :
  ¬ Forall readable entries → forallb convertible entries = false.
Proof.
  intros H. destruct (forallb convertible entries) eqn:E; [|done].
  destruct H. apply Forall_forall. intros x Hx.
  rewrite forallb_forall in E. by apply convertible_readable, E, list_elem_of_In.
Qed.

(** Import of an array: the items built from the entries, those without
    an image dropped, are merged into the gallery. *)
Lemma handleImportFile_array entries items st w w' :
  import_entries entries w = (Ok items, w') →
  handleImportFile (Some (Ok (VArr entries))) st w
  = (set_gallery (merge (List.filter has_image items) (gallery st)) st,
     saveGalleryToStorage (merge (List.filter has_image items) (gallery st)) w').
Proof.
  intros H. unfold handleImportFile, bind, lift, ret. by rewrite H.
Qed.

(** Import of an array that throws: the message is shown, nothing else
    changes. *)
Lemma handleImportFile_throws entries message st w w' :
  import_entries entries w = (Throw (Some message), w') → message ≠ "" →
  handleImportFile (Some (Ok (VArr entries))) st w
  = (set_error (Some message) st, w').
Proof.
  intros H Hm. unfold handleImportFile, bind, lift, ret. rewrite H.
  by destruct message.
Qed.

(** What import adds to the gallery has an image. *)
Lemma imported_items_have_image file st w item :
  item ∈ gallery (handleImportFile file st w).1 →
  item ∈ gallery st ∨ has_image item = true.
Proof.
  unfold handleImportFile, bind, lift, ret.
  destruct file as [[doc|err]|]; [|auto..].
  destruct doc; auto.
  destruct (import_entries elements w) as [[items|err] w']; [|auto].
  simpl. unfold merge. rewrite elem_of_app, !list_elem_of_In, filter_In, filter_In.
  tauto.
Qed.



Lemma map_toString_strings ts : List.map toString (List.map VStr ts) = ts.
Proof. induction ts as [|t ts IH]; simpl; [done | by rewrite IH]. Qed.

Lemma strings_convertible ts : existsb unconvertible (List.map VStr ts) = false.
Proof. by induction ts. Qed.

(** The callback reads back an exported item as it was. *)
Lemma import_entry_stringify_item item w :
  well_formed item → defaults_free item →
  import_entry (stringify_item item) w = (Ok item, w).
Proof.
  intros (Haction & Hsize & (image & Hb64 & Himage) & [ts Htags])
         (Hid & Hcreated & Hmodel).
  destruct item as [i c p a z m b t]; simpl in *. subst b t.
  destruct i as [|i0 i]; [done|]. destruct c as [|c0 c]; [done|].
  destruct m as [|m0 m]; [done|]. destruct image as [|b0 image]; [done|].
  destruct w.
  unfold actions in Haction. unfold sizes in Hsize.
  repeat (apply elem_of_cons in Haction as [->|Haction]);
    [..|by apply elem_of_nil in Haction];
    (repeat (apply elem_of_cons in Hsize as [->|Hsize]);
     [..|by apply elem_of_nil in Hsize]);
    (rewrite import_entry_convertible
       by (unfold convertible, stringify_item, field; simpl;
           by rewrite strings_convertible));
    unfold imported, after_entry, stringify_item, field, or_else; simpl;
    rewrite map_toString_strings; by destruct p.
Qed.

Lemma import_entries_stringify_items items w :
  Forall (λ item, well_formed item ∧ defaults_free item) items →
  import_entries (List.map stringify_item items) w = (Ok items, w).
Proof.
  induction 1 as [|item l [Hwf Hfree] _ IH]; simpl; [done|].
  unfold bind at 1. rewrite import_entry_stringify_item by done.
  unfold bind. by rewrite IH.
Qed.

Lemma filter_has_image items :
  Forall well_formed items → List.filter has_image items = items.
Proof.
  induction 1 as [|item l (_ & _ & (image & Hb64 & Himage) & _) _ IH]; simpl; [done|].
  unfold has_image at 1. rewrite Hb64, IH. by destruct image.
Qed.

Lemma merge_into_empty incoming : merge incoming [] = incoming.
Proof.
  unfold merge. rewrite app_nil_r. simpl.
  induction incoming as [|i l IH]; simpl; [done|].
  rewrite bool_decide_eq_false_2 by set_solver. simpl. by rewrite IH.
Qed.

(** C5, amended.  For a gallery whose items satisfy the stated invariants
    and have a non-empty id, createdAt and model, exporting it and
    importing the exported document into an empty gallery yields the
    same list of items, every field as it was. *)
Theorem export_import_roundtrip st st0 w :
  Forall (λ item, well_formed item ∧ defaults_free item) (gallery st) →
  gallery st0 = [] →
  gallery (handleImportFile (Some (Ok (exportGalleryAsJSON st))) st0 w).1
  = gallery st.
Proof.
  intros Hitems Hempty. unfold exportGalleryAsJSON.
  rewrite (handleImportFile_array _ _ _ _ _
             (import_entries_stringify_items _ w Hitems)).
  simpl. rewrite Hempty, merge_into_empty. apply filter_has_image.
  eapply Forall_impl; [exact Hitems|]. by intros item [H _].
Qed.

End ImportExport.

(** C5, as stated, fails.  An item saved with an empty model satisfies the
    stated invariants; after export and import its model is "gpt-image-1". *)
Lemma empty_model_not_preserved :
  ¬ (Forall Studio.well_formed [Studio.unnamed_model_item] →
     Studio.gallery
       (Studio.import
          (Studio.exportGalleryAsJSON
             (Studio.set_gallery [Studio.unnamed_model_item] Studio.initial))
          Studio.initial)
     = [Studio.unnamed_model_item]).
Proof.
  intros H.
  assert (Forall Studio.well_formed [Studio.unnamed_model_item]) as Hwf.
  { constructor; [|constructor].
    unfold Studio.well_formed, Studio.actions, Studio.sizes; simpl.
    repeat split; [set_solver | set_solver | eexists; by split | by eexists]. }
  specialize (H Hwf). vm_compute in H. discriminate H.
Qed.

Lemma export_import_roundtrip_witness :
  Studio.gallery
    (Studio.handleImportFile
       (Some (Js.Ok (Studio.exportGalleryAsJSON
                       (Studio.set_gallery [Studio.fox_item] Studio.initial))))
       Studio.initial Studio.sample_world).1
  = [Studio.fox_item].
Proof.
  apply (export_import_roundtrip
           (Studio.set_gallery [Studio.fox_item] Studio.initial)
           Studio.initial Studio.sample_world); [|reflexivity].
  constructor; [|constructor].
  unfold Studio.well_formed, Studio.defaults_free, Studio.actions, Studio.sizes; simpl.
  repeat split; [set_solver | set_solver | eexists; by split | by eexists
                | done | done | done].
Defined.

(** * Properties of the export overlay *)

Section OverlayProperties.
Import Js Studio.

Variable fits : string → bool.

(** The loop, cut at two lines, computes the first two greedy lines. *)
Lemma wrap_words_greedy words lines line :
  (length lines < 2)%nat →
  (let '(lines', line') := wrap_words fits words lines line in
   if negb (is_empty line') && bool_decide (length lines' < 2)%nat
   then lines' ++ [line'] else lines')
  = take 2 (lines ++ greedy_lines fits line words).
Proof.
  revert lines line. induction words as [|w rest IH]; intros lines line Hlen.
  - simpl. destruct lines as [|l1 [|l2 lines]]; simpl in *; try lia;
      by destruct (is_empty line).
  - simpl.
    destruct (fits (if is_empty line then w else line +:+ " " +:+ w)).
    + rewrite bool_decide_eq_false_2 by lia. by apply IH.
    + destruct (is_empty line).
      * rewrite bool_decide_eq_false_2 by lia. simpl. by apply IH.
      * destruct lines as [|l1 [|l2 lines]]; simpl in Hlen; try lia.
        -- simpl. rewrite (IH [line] w) by (simpl; lia). done.
        -- simpl. rewrite andb_false_r. by rewrite take_0.
Qed.

Lemma prompt_lines_greedy promptText :
  prompt_lines fits promptText
  = take 2 (greedy_lines fits "" (split_spaces promptText)).
Proof.
  unfold prompt_lines.
  pose proof (wrap_words_greedy (split_spaces promptText) [] "") as H.
  simpl in H. rewrite <- H by lia.
  by destruct (wrap_words fits (split_spaces promptText) [] "").
Qed.

(** A greedy line is never empty, and it fits unless it is a single word
    (or the line the wrap started from). *)
Lemma greedy_lines_nonempty words line :
  Forall (λ l, l ≠ "") (greedy_lines fits line words).
Proof.
  revert line. induction words as [|w rest IH]; intros line; simpl.
  - destruct line; [constructor | by repeat constructor].
  - destruct (fits _); [apply IH|].
    apply Forall_app. split; [|apply IH].
    destruct line; [constructor | by repeat constructor].
Qed.

Lemma greedy_lines_fit words line :
  Forall (λ l, fits l = true ∨ l ∈ words ∨ l = line)
    (greedy_lines fits line words).
Proof.
  revert line. induction words as [|w rest IH]; intros line; simpl.
  - destruct (is_empty line); [constructor|].
    constructor; [auto | constructor].
  - destruct (fits _) eqn:Hfits.
    + eapply Forall_impl; [apply IH|]. simpl.
      intros l [H|[H| ->]]; [auto | right; left; by right | auto].
    + apply Forall_app. split.
      * destruct (is_empty line); [constructor|].
        constructor; [auto | constructor].
      * eapply Forall_impl; [apply IH|]. simpl.
        intros l [H|[H| ->]]; [auto | right; left; by right | right; left; by left].
Qed.

End OverlayProperties.

Section Words.
Import Js Studio.

Lemma space_free_start w : space_free w = true → starts_with_space w = false.
Proof. destruct w as [|c w]; [done|]. simpl. by destruct (is_space c). Qed.

Lemma split_spaces_go_gap s :
  starts_with_space s = false → split_spaces_go true s = split_spaces_go false s.
Proof. destruct s as [|c s]; [done|]. simpl. by intros ->. Qed.

Lemma split_spaces_go_skip c s :
  is_space c = true → starts_with_space s = true →
  split_spaces_go false (String c s) = split_spaces_go false s.
Proof.
  intros Hc Hs. destruct s as [|c2 s]; [done|]. simpl in *. by rewrite Hc, Hs.
Qed.

(** [split(/\s+/)] splits a text into its words. *)
Lemma split_spaces_split s : split_at_spaces s (split_spaces s).
Proof.
  unfold split_spaces. induction s as [|a s IH].
  - by constructor.
  - destruct (is_space a) eqn:Ha.
    + destruct (starts_with_space s) eqn:Hs.
      * rewrite split_spaces_go_skip by done.
        inversion IH as [w Hw Ew El|w gap rest words Hw Hgap Hall Hrest Hwords Ew El].
        { apply space_free_start in Hw. congruence. }
        destruct w as [|c w].
        -- change (String a ("" +:+ gap +:+ rest))
             with ("" +:+ String a gap +:+ rest).
           constructor; try done. simpl. by rewrite Ha.
        -- subst s. simpl in Hs, Hw. by rewrite Hs in Hw.
      * simpl. rewrite Ha, split_spaces_go_gap by done.
        change (String a s) with ("" +:+ String a "" +:+ s).
        constructor; try done. simpl. by rewrite Ha.
    + simpl. rewrite Ha.
      inversion IH as [w Hw Ew El|w gap rest words Hw Hgap Hall Hrest Hwords Ew El].
      * constructor. simpl. by rewrite Ha.
      * change (String a (w +:+ gap +:+ rest))
          with (String a w +:+ gap +:+ rest).
        constructor; try done. simpl. by rewrite Ha.
Qed.

Lemma split_spaces_word w :
  space_free w = true → split_spaces_go false w = [w].
Proof.
  induction w as [|a w IH]; [done|]. simpl.
  destruct (is_space a); [done|]. simpl. intros Hw. by rewrite IH.
Qed.

Lemma split_spaces_after_word w c t :
  space_free w = true → is_space c = true →
  split_spaces_go false (w +:+ String c t) = w :: split_spaces_go true t.
Proof.
  intros Hw Hc. induction w as [|a w IH].
  - change ("" +:+ String c t) with (String c t). simpl. by rewrite Hc.
  - rewrite append_cons. simpl in *.
    destruct (is_space a); [done|]. simpl in Hw. by rewrite IH.
Qed.

Lemma split_spaces_in_gap gap rest :
  all_space gap = true →
  split_spaces_go true (gap +:+ rest) = split_spaces_go true rest.
Proof.
  induction gap as [|c gap IH]; [done|]. rewrite append_cons. simpl.
  destruct (is_space c); [|done]. simpl. apply IH.
Qed.

(** A text has no other words. *)
Lemma split_at_spaces_unique s words :
  split_at_spaces s words → words = split_spaces s.
Proof.
  unfold split_spaces.
  induction 1 as [w Hw|w gap rest words Hw Hgap Hall Hrest Hwords IH].
  - by rewrite split_spaces_word.
  - destruct gap as [|c gap]; [done|]. simpl in Hall.
    apply andb_true_iff in Hall as [Hc Hall].
    rewrite append_cons, split_spaces_after_word, split_spaces_in_gap,
      split_spaces_go_gap by done.
    by rewrite IH.
Qed.

End Words.

Section OverlayDrawing.
Import Js Studio.

Variable measureText : string → string → QArith_base.Q.

Lemma texts_app ops1 ops2 : texts (ops1 ++ ops2) = texts ops1 ++ texts ops2.
Proof. apply omap_app. Qed.

Lemma texts_imap (draw : nat → string → DrawOp) lines :
  (∀ i l, texts [draw i l] = [l]) → texts (imap draw lines) = lines.
Proof.
  revert draw. induction lines as [|l lines IH]; intros draw Hdraw; [done|].
  change (imap draw (l :: lines)) with ([draw 0%nat l] ++ imap (draw ∘ S) lines).
  rewrite texts_app, Hdraw, IH; [done|]. intros i l'. apply Hdraw.
Qed.

(** The drawing calls of the overlay, for an item whose action and size
    have a text. *)
Lemma drawOverlay_drawn item width height meta :
  meta_line item = Ok meta →
  drawOverlay measureText item width height
  = (FillRect "rgba(0,0,0,0.55)" 0 (height - band_height height) width
       (band_height height)
     :: imap (λ i l, FillText "#fff" (font_of "600" (heading_size width)) l
                       (band_padding width)
                       (height - band_height height + band_padding width
                        + heading_size width
                        + Z.of_nat i * (heading_size width + 4)))
          (prompt_lines (fits_band measureText width) (prompt item))
     ++ [FillText "#fff"
           (font_of "400"
              (Z.max 12 (Math_floor (double_mul (double_of_Z width) double_0_014))))
           meta (band_padding width) (height - band_padding width)],
     Ok tt).
Proof. intros Hmeta. unfold drawOverlay. by rewrite Hmeta. Qed.

(** C9.  For an item whose action and size are strings, as its type says,
    the overlay writes the first two lines of the greedy wrap of the
    prompt's words (a line takes words while it stays narrower than the
    band; later words are dropped), then exactly one metadata line
    "action • size • model • tags", and returns.  The words are the
    pieces of the prompt between its runs of white space.  Every prompt
    line is non-empty, and it fits the band unless it is a single word. *)
Theorem drawOverlay_lines item_id created promptText item_action item_size
    item_model image item_tags width height :
  let item := typed_item item_id created promptText item_action item_size
                item_model image item_tags in
  let fits test :=
    Qltb (measureText (font_of "600" (heading_size width)) test)
      (QArith_base.inject_Z (width - band_padding width * 2)) in
  ∃ words ops,
    split_at_spaces promptText words
    ∧ (∀ others, split_at_spaces promptText others → others = words)
    ∧ drawOverlay measureText item width height = (ops, Ok tt)
    ∧ texts ops
      = take 2 (greedy_lines fits "" words)
        ++ [item_action +:+ " • " +:+ item_size +:+ " • " +:+ item_model
            +:+ " • " +:+ join ", " (default [] item_tags)]
    ∧ (length (take 2 (greedy_lines fits "" words)) ≤ 2)%nat
    ∧ Forall (λ l, l ≠ "" ∧ (fits l = true ∨ l ∈ words))
        (take 2 (greedy_lines fits "" words)).
Proof.
  intros item fits.
  exists (split_spaces promptText). eexists.
  split; [apply split_spaces_split|].
  split; [apply split_at_spaces_unique|].
  split; [by apply drawOverlay_drawn|].
  split; [|split].
  - change (texts
              ([FillRect "rgba(0,0,0,0.55)" 0 (height - band_height height) width
                  (band_height height)]
               ++ imap (λ i l, FillText "#fff" (font_of "600" (heading_size width)) l
                                 (band_padding width)
                                 (height - band_height height + band_padding width
                                  + heading_size width
                                  + Z.of_nat i * (heading_size width + 4)))
                    (prompt_lines fits promptText)
               ++ [FillText "#fff"
                     (font_of "400"
                        (Z.max 12 (Math_floor (double_mul (double_of_Z width)
                                                 double_0_014))))
                     (item_action +:+ " • " +:+ item_size +:+ " • " +:+ item_model
                      +:+ " • " +:+ join ", " (default [] item_tags))
                     (band_padding width) (height - band_padding width)])
            = take 2 (greedy_lines fits "" (split_spaces promptText))
              ++ [item_action +:+ " • " +:+ item_size +:+ " • " +:+ item_model
                  +:+ " • " +:+ join ", " (default [] item_tags)]).
    rewrite !texts_app, texts_imap by done.
    by rewrite prompt_lines_greedy.
  - rewrite length_take. lia.
  - apply Forall_take.
    pose proof (greedy_lines_nonempty fits (split_spaces promptText) "") as Hne.
    pose proof (greedy_lines_fit fits (split_spaces promptText) "") as Hfit.
    rewrite Forall_forall in Hne, Hfit. apply Forall_forall.
    intros l Hl. split; [by apply Hne|].
    destruct (Hfit l Hl) as [H|[H|H]]; [auto | auto |].
    subst l. by destruct (Hne "" Hl).
Qed.

End OverlayDrawing.

(** A prompt wrapped on a canvas where a text fits when it has fewer than
    ten characters: two lines are drawn and "over the lazy dog" is
    dropped. *)
Example drawOverlay_ex :
  Studio.texts
    (Studio.drawOverlay (λ _ text, QArith_base.inject_Z (Z.of_nat (String.length text)) )
       {| Studio.id := "7f3c"; Studio.createdAt := "2024-05-01T10:00:00.000Z";
          Studio.prompt := "a red fox jumps over the lazy dog";
          Studio.action := Js.VStr "generate"; Studio.size := Js.VStr "1024x1024";
          Studio.model := "gpt-image-1"; Studio.b64 := Js.VStr "aGVsbG8=";
          Studio.tags := Some ["noir"; "fox"] |} 42 600).1
  = ["a red fox"; "jumps"; "generate • 1024x1024 • gpt-image-1 • noir, fox"].
Proof. vm_compute. reflexivity. Qed.

(** The heading font on a canvas 1500 wide has 26 pixels: the product of
    1500 and the double 0.018 lies just below 27. *)
Example heading_size_1500 :
  Studio.heading_size 1500 = 26 ∧ 1500 * 18 / 1000 = 27.
Proof. split; vm_compute; reflexivity. Qed.

(** An action that cannot be converted to a string: the band and the
    prompt are drawn, then the template literal throws. *)
Example drawOverlay_object_action :
  Studio.drawOverlay (λ _ text, QArith_base.inject_Z (Z.of_nat (String.length text)))
    {| Studio.id := "7f3c"; Studio.createdAt := "2024-05-01T10:00:00.000Z";
       Studio.prompt := "a red fox";
       Studio.action := Js.VObj [("toString", Js.VNum 1)];
       Studio.size := Js.VStr "1024x1024";
       Studio.model := "gpt-image-1"; Studio.b64 := Js.VStr "aGVsbG8=";
       Studio.tags := Some [] |} 1024 1024
  = ([Studio.FillRect "rgba(0,0,0,0.55)" 0 861 1024 163;
      Studio.FillText "#fff" "600 18px system-ui, -apple-system, Segoe UI, Roboto"
        "a red fox" 20 899],
     Js.Throw (Some "Cannot convert object to primitive value")).
Proof. vm_compute. reflexivity. Qed.

(** * Scenarios of the specification *)

(** An entry without [tags] is imported with [tags: []], and the missing
    fields get their defaults. *)
Example import_entry_without_tags :
  Studio.gallery
    (Studio.import (Js.VArr [Js.VObj [("id", Js.VStr "k1"); ("b64", Js.VStr "aGVsbG8=")]])
       Studio.initial)
  = [{| Studio.id := "k1"; Studio.createdAt := "2025-01-01T00:00:00.000Z";
        Studio.prompt := ""; Studio.action := Js.VStr "generate";
        Studio.size := Js.VStr "1024x1024"; Studio.model := "gpt-image-1";
        Studio.b64 := Js.VStr "aGVsbG8="; Studio.tags := Some [] |}].
Proof. vm_compute. reflexivity. Qed.

(** Entries without an image are dropped, whatever else they hold. *)
Example import_drops_entries_without_image :
  Studio.gallery
    (Studio.import
       (Js.VArr [Js.VObj [("id", Js.VStr "k1"); ("prompt", Js.VStr "no image")];
                 Js.VObj [("id", Js.VStr "k2"); ("b64", Js.VStr "")];
                 Js.VNum 7; Js.VStr "text"])
       Studio.initial)
  = [].
Proof. vm_compute. reflexivity. Qed.

(** A [null] entry aborts the import: the error is shown and the gallery
    keeps its items. *)
Example import_null_entry :
  let st := Studio.set_gallery [Studio.fox_item] Studio.initial in
  let st' := Studio.import (Js.VArr [Studio.entry "k1" "aGVsbG8="; Js.VNull]) st in
  Studio.gallery st' = [Studio.fox_item]
  ∧ Studio.error st' = Some "Cannot read properties of null (reading 'id')".
Proof. split; vm_compute; reflexivity. Qed.

(** An entry whose id cannot be converted to a string aborts the import as
    well, also for the entries before it. *)
Example import_object_id_entry :
  let st := Studio.set_gallery [Studio.fox_item] Studio.initial in
  let st' :=
    Studio.import
      (Js.VArr [Studio.entry "k1" "aGVsbG8=";
                Js.VObj [("id", Js.VObj [("toString", Js.VNum 1)]);
                         ("b64", Js.VStr "aGVsbG8=")]]) st in
  Studio.gallery st' = [Studio.fox_item]
  ∧ Studio.error st' = Some "Cannot convert object to primitive value".
Proof. split; vm_compute; reflexivity. Qed.

(** A generate request answered by the proxy puts one new item at the head
    of the gallery, with the fields of the form. *)
Example submit_generate :
  let st := Studio.set_gallery [Studio.fox_item] Studio.initial in
  let request :=
    Route.json_request
      (Js.Ok (Js.VObj [("prompt", Js.VStr ""); ("size", Js.VStr "1024x1024");
                       ("model", Js.VStr "gpt-image-1");
                       ("action", Js.VStr "generate")])) in
  let answer := (Route.POST Route.sample_env Route.steady_service request).1 in
  Studio.gallery (Studio.handleSubmit (Js.Ok answer) st Studio.sample_world).1
  = [{| Studio.id := "uuid-0"; Studio.createdAt := "2025-01-01T00:00:00.000Z";
        Studio.prompt := ""; Studio.action := Js.VStr "generate";
        Studio.size := Js.VStr "1024x1024"; Studio.model := "gpt-image-1";
        Studio.b64 := Js.VStr "aGVsbG8="; Studio.tags := Some [] |};
     Studio.fox_item].
Proof. vm_compute. reflexivity. Qed.

(** An edit submitted without an image file is rejected by the proxy; the
    error is shown and the gallery is unchanged. *)
Example submit_edit_without_image :
  let st := Studio.set_gallery [Studio.fox_item] Studio.initial in
  let answer :=
    (Route.POST Route.sample_env Route.steady_service
       Route.edit_form_without_image).1 in
  let st' := (Studio.handleSubmit (Js.Ok answer) st Studio.sample_world).1 in
  Studio.gallery st' = [Studio.fox_item]
  ∧ Studio.error st' = Some "image file is required for edit".
Proof. split; vm_compute; reflexivity. Qed.

(** The search ignores case and the white space around the query. *)
Example search_ignores_case :
  Studio.filteredGallery [Studio.fox_item; Studio.unnamed_model_item] "  NOIR " = [Studio.fox_item]
  ∧ Studio.filteredGallery [Studio.fox_item; Studio.unnamed_model_item] "red FOX"
    = [Studio.fox_item; Studio.unnamed_model_item].
Proof. split; vm_compute; reflexivity. Qed.

Example parseTags_ex :
  Studio.parseTags "portrait, noir ,, high contrast" = ["portrait"; "noir"; "high contrast"].
Proof. vm_compute. reflexivity. Qed.

(** * Further properties of the request proxy *)

Section RouteFurther.
Import Js Route.

Variable env : ProcessEnv.
Variable OpenAI : string → Images.

(** X1.  Without an API key (unset or empty) every request, whatever it
    holds, is answered 500 with the error "OPENAI_API_KEY is not set", and
    the service is not called. *)
Theorem missing_key_answer req :
  key_configured env = false →
  POST env OpenAI req = (error_response 500 "OPENAI_API_KEY is not set", []).
Proof.
  intros Hkey. by rewrite POST_plan, (getOpenAI_missing env OpenAI Hkey).
Qed.

Lemma calls_of_plan req c :
  c ∈ (POST env OpenAI req).2 → plan req = Invoke c.
Proof.
  rewrite POST_plan.
  destruct (getOpenAI env OpenAI); [|by intros ?%elem_of_nil].
  destruct (plan req); simpl; [by intros ?%elem_of_nil..|].
  by intros ->%list_elem_of_singleton.
Qed.

(** X2.  A request leads to at most one call of the service, and the call
    is of the kind the request asks for: edit and createVariation are
    called only for a multipart form with that action and an image file,
    generate only when the request is not a multipart edit or variation. *)
Theorem one_call_of_the_requested_kind req :
  (length (POST env OpenAI req).2 ≤ 1)%nat
  ∧ ∀ c, c ∈ (POST env OpenAI req).2 →
      match c with
      | CallEdit p =>
          is_multipart req = true
          ∧ is_string (requested_action req) "edit" = true
          ∧ carries_image_file req = true
      | CallVariation p =>
          is_multipart req = true
          ∧ is_string (requested_action req) "variation" = true
          ∧ carries_image_file req = true
      | CallGenerate p =>
          ¬ (is_multipart req = true ∧ asks_edit_or_variation req)
      end.
Proof.
  split.
  - rewrite POST_plan.
    destruct (getOpenAI env OpenAI); [|simpl; lia].
    destruct (plan req); simpl; lia.
  - intros c Hc%calls_of_plan. revert Hc.
    unfold plan, asks_edit_or_variation, requested_action, carries_image_file.
    destruct (is_multipart req).
    + destruct (formData req) as [form|]; [|done].
      unfold plan_form.
      destruct (is_string _ "edit") eqn:He.
      { destruct (form_get form "image"); try done. by intros [= <-]. }
      destruct (is_string _ "variation") eqn:Hv.
      { destruct (form_get form "image"); try done. by intros [= <-]. }
      intros [= <-]. intros [_ [?|?]]; congruence.
    + destruct (json req) as [body|]; [|done].
      unfold plan_json. destruct (get_prop body "prompt"); [|done].
      destruct (unconvertible _); [done|].
      intros [= <-]. by intros [? _].
Qed.

(** X3.  Every createVariation call asks for the [b64_json] format and
    names a model of the "dall-e" family: the model of the form when it is
    of that family, "dall-e-2" otherwise. *)
Theorem variation_call_model req p :
  CallVariation p ∈ (POST env OpenAI req).2 →
  var_response_format p = "b64_json"
  ∧ is_dalle (var_model p) = true
  ∧ ∃ form, formData req = Ok form
      ∧ let model := or_else (form_get form "model") (VStr "gpt-image-1") in
        var_model p = (if is_dalle model then model else VStr "dall-e-2")
        ∧ var_size p = or_else (form_get form "size") (VStr "1024x1024").
Proof.
  intros Hc%calls_of_plan. revert Hc. unfold plan.
  destruct (is_multipart req).
  - destruct (formData req) as [form|]; [|done].
    unfold plan_form.
    destruct (is_string _ "edit").
    { by destruct (form_get form "image"). }
    destruct (is_string _ "variation"); [|done].
    destruct (form_get form "image"); try done.
    intros [= <-]. simpl. split; [done|]. split.
    + by destruct (is_dalle (or_else (form_get form "model") (VStr "gpt-image-1")))
        eqn:Hm.
    + eauto.
  - destruct (json req) as [body|]; [|done].
    unfold plan_json. destruct (get_prop body "prompt"); [|done].
    by destruct (unconvertible _).
Qed.

(** X4.  A generate or edit call carries [response_format: "b64_json"]
    exactly when the name of its model includes "dall-e"; for any other
    model, such as the default "gpt-image-1", no response format is sent. *)
Theorem response_format_only_for_dalle req c :
  c ∈ (POST env OpenAI req).2 →
  match c with
  | CallGenerate p =>
      gen_response_format p
      = (if is_dalle (gen_model p) then Some "b64_json" else None)
  | CallEdit p =>
      edit_response_format p
      = (if is_dalle (edit_model p) then Some "b64_json" else None)
  | CallVariation p => True
  end.
Proof.
  intros Hc%calls_of_plan. revert Hc. unfold plan.
  destruct (is_multipart req).
  - destruct (formData req) as [form|]; [|done].
    unfold plan_form.
    destruct (is_string _ "edit").
    { destruct (form_get form "image"); try done. by intros [= <-]. }
    destruct (is_string _ "variation").
    { destruct (form_get form "image"); try done. by intros [= <-]. }
    by intros [= <-].
  - destruct (json req) as [body|]; [|done].
    unfold plan_json. destruct (get_prop body "prompt"); [|done].
    destruct (unconvertible _); [done|].
    by intros [= <-].
Qed.

(** X5.  The validation status 400 is answered exactly for a multipart
    request, under a configured key and with a readable form, that asks
    for an edit or a variation and carries no image file. *)
Theorem status_400_exactly req :
  status (POST env OpenAI req).1 = 400 ↔
  key_configured env = true ∧ is_multipart req = true
  ∧ body_unreadable req = false ∧ asks_edit_or_variation req
  ∧ carries_image_file req = false.
Proof.
  split.
  - rewrite POST_plan.
    destruct (key_configured env) eqn:Hkey.
    2:{ by rewrite (getOpenAI_missing env OpenAI Hkey). }
    destruct (getOpenAI_configured env OpenAI Hkey) as (apiKey & _ & ->).
    destruct (plan req) as [err|message|c] eqn:Hplan; simpl; [done| |].
    + intros _. revert Hplan.
      unfold plan, body_unreadable, asks_edit_or_variation, requested_action,
        carries_image_file.
      destruct (is_multipart req).
      * destruct (formData req) as [form|]; [|done].
        intros [Hact Himg]%plan_form_reject.
        repeat split; [done|].
        destruct (form_get form "image"); try done. by destruct (Himg f).
      * destruct (json req) as [body|]; [|done].
        unfold plan_json. destruct (get_prop body "prompt"); [|done].
        by destruct (unconvertible _).
    + destruct (conclude_cases (call_outcome (OpenAI apiKey) c))
        as [(s & res & _ & _ & _ & ->)|(message & -> & _)]; done.
  - intros (Hkey & Hmp & Hbody & Hact & Himg).
    destruct (getOpenAI_configured env OpenAI Hkey) as (apiKey & _ & Hclient).
    rewrite POST_plan, Hclient.
    unfold asks_edit_or_variation, requested_action, carries_image_file,
      body_unreadable, plan in *.
    rewrite Hmp in *.
    destruct (formData req) as [form|err]; [|discriminate].
    unfold plan_form.
    destruct (is_string _ "edit").
    { by destruct (form_get form "image"). }
    destruct Hact as [|Hv]; [discriminate|]. rewrite Hv.
    by destruct (form_get form "image").
Qed.

End RouteFurther.

Section RouteFurtherWitnesses.
Import Js Route.

Lemma missing_key_answer_witness :
  POST no_key_env steady_service json_edit_request
  = (error_response 500 "OPENAI_API_KEY is not set", []).
Proof. apply (missing_key_answer no_key_env steady_service). reflexivity. Defined.

Lemma variation_call_model_witness :
  let p := {| var_model := VStr "dall-e-2"; var_image := sample_file;
              var_size := VStr "512x512"; var_response_format := "b64_json" |} in
  (POST sample_env steady_service variation_form_with_image).2 = [CallVariation p]
  ∧ var_response_format p = "b64_json"
  ∧ is_dalle (var_model p) = true.
Proof.
  intros p.
  assert ((POST sample_env steady_service variation_form_with_image).2
          = [CallVariation p]) as E by reflexivity.
  split; [exact E|].
  destruct (variation_call_model sample_env steady_service
              variation_form_with_image p) as (Hformat & Hmodel & _).
  { rewrite E. by left. }
  by split.
Defined.

Lemma response_format_only_for_dalle_witness :
  gen_response_format
    {| gen_model := VStr "gpt-image-1"; gen_prompt := VStr "a red fox";
       gen_size := VStr "512x512"; gen_response_format := None |} = None.
Proof.
  apply (response_format_only_for_dalle sample_env steady_service json_edit_request
           (CallGenerate {| gen_model := VStr "gpt-image-1"; gen_prompt := VStr "a red fox";
                            gen_size := VStr "512x512"; gen_response_format := None |})).
  rewrite json_edit_request_result. by left.
Defined.

End RouteFurtherWitnesses.

(** * Further properties of the gallery store *)

Section StoreFurther.
Import Js Studio.

(** X6.  Delete keeps exactly the items whose id differs from the target,
    in their order; all items with that id go, and deleting an id that is
    not in the gallery changes nothing. *)
Theorem deleteFromGallery_removes target st w :
  let next := gallery (deleteFromGallery target st w).1 in
  sublist next (gallery st)
  ∧ (∀ item, item ∈ next ↔ item ∈ gallery st ∧ id item ≠ target)
  ∧ (target ∉ ids (gallery st) → next = gallery st).
Proof.
  intros next. subst next.
  change (gallery (deleteFromGallery target st w).1)
    with (List.filter (λ g, negb (bool_decide (id g = target))) (gallery st)).
  generalize (gallery st). intros l. split; [|split].
  - induction l as [|x l IH]; simpl; [done|]. destruct (negb _); by constructor.
  - intros item. rewrite !list_elem_of_In, filter_In, negb_true_iff,
      bool_decide_eq_false. done.
  - unfold ids. induction l as [|x l IH]; simpl; [done|]. intros Hnot.
    rewrite not_elem_of_cons in Hnot. destruct Hnot as [Hx Hl].
    rewrite bool_decide_eq_false_2 by done. simpl. by rewrite IH.
Qed.

(** X7.  Deleting an item right after adding it gives the gallery back,
    when its id is new and the gallery held fewer than 100 items (at 100
    the add has evicted the last item, which does not come back). *)
Theorem delete_after_add item st w w' :
  id item ∉ ids (gallery st) →
  (length (gallery st) < 100)%nat →
  gallery (deleteFromGallery (id item) (addToGallery item st w).1 w').1 = gallery st.
Proof.
  intros Hfresh Hlen.
  change (List.filter (λ g, negb (bool_decide (id g = id item)))
            (take 100 (item :: gallery st)) = gallery st).
  rewrite take_ge by (simpl; lia). simpl.
  rewrite bool_decide_eq_true_2 by done. simpl.
  revert Hfresh. unfold ids. generalize (gallery st). intros l.
  induction l as [|x l IH]; simpl; [done|]. intros Hnot.
  rewrite not_elem_of_cons in Hnot. destruct Hnot as [Hx Hl].
  rewrite bool_decide_eq_false_2 by done. simpl. by rewrite IH.
Qed.

(** Add, delete and clear write the new gallery to the storage when the
    storage accepts it; when it refuses (quota), the gallery changes all
    the same and the storage keeps what it held. *)
Lemma storage_written_or_kept st w :
  let follows (r : State * World) :=
    localStorage r.2
    = (if quota_ok w (gallery r.1) then Some (gallery r.1) else localStorage w) in
  (∀ item, follows (addToGallery item st w))
  ∧ (∀ target, follows (deleteFromGallery target st w))
  ∧ follows (clearGallery st w).
Proof.
  intros follows. subst follows.
  unfold addToGallery, deleteFromGallery, clearGallery, saveGalleryToStorage; simpl.
  repeat split; intros; by destruct (quota_ok w _).
Qed.

End StoreFurther.

Lemma delete_after_add_witness :
  Studio.gallery
    (Studio.deleteFromGallery "7f3c"
       (Studio.addToGallery Studio.fox_item Studio.initial Studio.sample_world).1
       Studio.sample_world).1
  = [].
Proof.
  apply (delete_after_add Studio.fox_item Studio.initial Studio.sample_world
           Studio.sample_world).
  - apply not_elem_of_nil.
  - simpl. lia.
Defined.

(** * Further properties: tags *)

Section Tags.
Import Js Studio.

Lemma append_empty_r s : s +:+ "" = s.
Proof. induction s as [|c s IH]; [done|]. by rewrite append_cons, IH. Qed.

Lemma append_assoc s t u : (s +:+ t) +:+ u = s +:+ t +:+ u.
Proof. induction s as [|c s IH]; [done|]. by rewrite !append_cons, IH. Qed.

Lemma rev_app_append s acc : String.rev_app s acc = String.rev s +:+ acc.
Proof.
  unfold String.rev. revert acc. induction s as [|c s IH]; intros acc; [done|].
  change (String.rev_app s (String c acc)
          = String.rev_app s (String c "") +:+ acc).
  by rewrite IH, (IH (String c "")), append_assoc.
Qed.

Lemma rev_cons c s : String.rev (String c s) = String.rev s +:+ String c "".
Proof. unfold String.rev at 1. apply (rev_app_append s (String c "")). Qed.

Lemma rev_snoc s c : String.rev (s +:+ String c "") = String c (String.rev s).
Proof.
  induction s as [|a s IH]; [done|].
  by rewrite append_cons, !rev_cons, IH, append_cons.
Qed.

Lemma trimStart_snoc x c :
  trimStart (x +:+ String c "")
  = match trimStart x with
    | EmptyString => if is_space c then "" else String c ""
    | r => r +:+ String c ""
    end.
Proof.
  induction x as [|a x IH]; simpl; [by destruct (is_space c)|].
  destruct (is_space a); [exact IH | reflexivity].
Qed.

Lemma trimEnd_trim_end s : trimEnd s = trim_end s.
Proof.
  unfold trimEnd. induction s as [|c s IH]; [done|].
  rewrite rev_cons, trimStart_snoc. simpl. rewrite <- IH.
  destruct (trimStart (String.rev s)) as [|a r]; simpl.
  - by destruct (is_space c).
  - change (String a r +:+ String c "") with (String a (r +:+ String c "")).
    rewrite <- append_cons, rev_snoc.
    destruct (String.rev (String a r)) eqn:E; [|done].
    rewrite rev_cons in E. by destruct (String.rev r).
Qed.


Lemma trim_end_cons c s :
  trim_end (String c s)
  = match trim_end s with
    | EmptyString => if is_space c then EmptyString else String c EmptyString
    | r => String c r
    end.
Proof. reflexivity. Qed.

Lemma trim_end_idem s : trim_end (trim_end s) = trim_end s.
Proof.
  induction s as [|c s IH]; [done|].
  rewrite trim_end_cons. destruct (trim_end s) as [|a r] eqn:E.
  - destruct (is_space c) eqn:Hc; [done|]. by rewrite trim_end_cons, Hc.
  - by rewrite trim_end_cons, IH.
Qed.

Lemma trim_end_head c s :
  is_space c = false → ∃ r, trim_end (String c s) = String c r.
Proof.
  intros Hc. rewrite trim_end_cons, Hc. destruct (trim_end s); eauto.
Qed.

Lemma trimStart_head s :
  trimStart s = "" ∨ ∃ c r, trimStart s = String c r ∧ is_space c = false.
Proof.
  induction s as [|c s IH]; simpl; [by left|].
  destruct (is_space c) eqn:Hc; [done|]. right. eauto.
Qed.

Lemma trim_idem s : trim (trim s) = trim s.
Proof.
  unfold trim. rewrite !trimEnd_trim_end.
  destruct (trimStart_head s) as [->|(c & r & -> & Hc)]; [done|].
  destruct (trim_end_head c r Hc) as [r' E].
  rewrite E. simpl trimStart. rewrite Hc, <- E. apply trim_end_idem.
Qed.

Lemma trim_after_space t : trim (String " " t) = trim t.
Proof. reflexivity. Qed.

Lemma separator_free_trim s : separator_free s = true → separator_free (trim s) = true.
Proof.
  unfold trim. rewrite trimEnd_trim_end. intros H.
  assert (separator_free (trimStart s) = true) as H'.
  { induction s as [|c s IH]; simpl in *; [done|].
    destruct (is_space c); [|done]. apply IH. by apply andb_true_iff in H as [_ ?]. }
  clear H. revert H'. generalize (trimStart s). clear s. intros s.
  induction s as [|c s IH]; [done|]. intros H. simpl in H.
  apply andb_true_iff in H as [Hc Hs]. rewrite trim_end_cons.
  specialize (IH Hs). destruct (trim_end s) as [|a r].
  - destruct (is_space c); [done|]. simpl. by rewrite Hc.
  - change (negb (is_tag_separator c) && separator_free (String a r) = true).
    by rewrite Hc, IH.
Qed.

Lemma separator_free_pieces s :
  Forall (λ t, separator_free t = true) (split_chars is_tag_separator s).
Proof.
  induction s as [|c s IH]; simpl; [by repeat constructor|].
  destruct (is_tag_separator c) eqn:Hc; [by constructor|].
  destruct (split_chars is_tag_separator s) as [|w ws].
  { constructor; [simpl; by rewrite Hc | constructor]. }
  apply Forall_cons in IH as [Hw Hws]. constructor; [|done].
  simpl. by rewrite Hc, Hw.
Qed.

Lemma parseTags_all_tidy input : Forall tidy (parseTags input).
Proof.
  unfold parseTags. apply Forall_take, Forall_forall. intros t Ht.
  apply list_elem_of_In, filter_In in Ht as [Ht Hne].
  apply in_map_iff in Ht as (piece & <- & Hpiece).
  split; [|split].
  - intros E. by rewrite E in Hne.
  - apply trim_idem.
  - apply separator_free_trim.
    pose proof (separator_free_pieces input) as H.
    rewrite Forall_forall in H. by apply H, list_elem_of_In.
Qed.

Lemma split_single t :
  separator_free t = true → split_chars is_tag_separator t = [t].
Proof.
  induction t as [|c t IH]; [done|]. simpl.
  intros [Hc Ht]%andb_true_iff. apply negb_true_iff in Hc. by rewrite Hc, IH.
Qed.

Lemma split_at_separator t c u :
  separator_free t = true → is_tag_separator c = true →
  split_chars is_tag_separator (t +:+ String c u)
  = t :: split_chars is_tag_separator u.
Proof.
  intros Ht Hc. induction t as [|a t IH].
  - change (split_chars is_tag_separator (String c u)
            = "" :: split_chars is_tag_separator u). simpl. by rewrite Hc.
  - simpl in Ht. apply andb_true_iff in Ht as [Ha Ht]. apply negb_true_iff in Ha.
    rewrite append_cons. simpl. by rewrite Ha, IH.
Qed.

Lemma split_join tags :
  Forall (λ t, separator_free t = true) tags →
  split_chars is_tag_separator (join ", " tags)
  = match tags with
    | [] => [""]
    | t :: rest => t :: List.map (String " ") rest
    end.
Proof.
  induction 1 as [|t rest Ht Hrest IH]; [done|].
  destruct rest as [|t' rest].
  - by apply split_single.
  - change (join ", " (t :: t' :: rest))
      with (t +:+ String "," (String " " (join ", " (t' :: rest)))).
    rewrite split_at_separator by done.
    change (split_chars is_tag_separator (String " " (join ", " (t' :: rest))))
      with (match split_chars is_tag_separator (join ", " (t' :: rest)) with
            | w :: ws => String " " w :: ws
            | [] => [String " " ""]
            end).
    by rewrite IH.
Qed.

Lemma filter_keeps_tidy (tags : list string) :
  Forall tidy tags → List.filter (λ t, negb (is_empty t)) tags = tags.
Proof.
  induction 1 as [|t rest (Hne & _) _ IH]; [done|].
  cbn [List.filter]. rewrite IH. by destruct t.
Qed.

Lemma trim_spaced (tags : list string) :
  Forall tidy tags → List.map trim (List.map (String " ") tags) = tags.
Proof.
  induction 1 as [|t rest (_ & Htrim & _) _ IH]; [done|].
  cbn [List.map]. by rewrite trim_after_space, Htrim, IH.
Qed.

Lemma parseTags_join tags :
  Forall tidy tags → (length tags ≤ 20)%nat → parseTags (join ", " tags) = tags.
Proof.
  intros Htidy Hlen. unfold parseTags.
  rewrite split_join.
  2:{ eapply Forall_impl; [exact Htidy|]. by intros t (_ & _ & ?). }
  assert (List.map trim
            match tags with
            | [] => [""]
            | t :: rest => t :: List.map (String " ") rest
            end = match tags with [] => [""] | _ => tags end) as ->.
  { destruct Htidy as [|t rest (_ & Htrim & _) Hrest]; [done|].
    cbn [List.map]. by rewrite Htrim, trim_spaced. }
  destruct tags as [|t rest]; [done|].
  rewrite filter_keeps_tidy by done. by apply take_ge.
Qed.

(** X8.  Every tag made by [parseTags] is non-empty, has no white space
    at its ends and holds neither a comma nor a line feed, and there are
    at most 20 of them. *)
Theorem parseTags_tidy input :
  Forall tidy (parseTags input) ∧ (length (parseTags input) ≤ 20)%nat.
Proof. split; [apply parseTags_all_tidy | apply parseTags_length]. Qed.

(** X9.  "Use prompt" writes the tags of an item into the tag field so
    that parsing the field gives the same tags back, when the tags are
    tidy and at most 20. *)
Theorem use_prompt_restores_tags item st :
  Forall tidy (tags_or_empty item) →
  (length (tags_or_empty item) ≤ 20)%nat →
  parseTags (tagsInput (handleUsePrompt item st)) = tags_or_empty item.
Proof. intros Htidy Hlen. by apply parseTags_join. Qed.

(** X10.  Writing parsed tags back as "a, b, c" and parsing that text
    gives the same tags: the tags of a submitted item survive "Use prompt"
    and a new submission unchanged. *)
Theorem parseTags_join_parseTags input :
  parseTags (join ", " (parseTags input)) = parseTags input.
Proof. apply parseTags_join; [apply parseTags_all_tidy | apply parseTags_length]. Qed.

End Tags.

Lemma use_prompt_restores_tags_witness :
  Studio.parseTags (Studio.tagsInput (Studio.handleUsePrompt Studio.fox_item Studio.initial))
  = ["noir"].
Proof.
  apply (use_prompt_restores_tags Studio.fox_item Studio.initial).
  - constructor; [|constructor]. by repeat split.
  - simpl. lia.
Defined.

(** * Further properties: search *)

Section SearchFurther.
Import Js Studio.

Lemma is_substring_trans a b c :
  is_substring a b → is_substring b c → is_substring a c.
Proof.
  intros (x & y & ->) (u & v & ->).
  exists (u +:+ x), (y +:+ v). by rewrite !append_assoc.
Qed.

Lemma sublist_filter_impl {A} (p1 p2 : A → bool) l :
  (∀ x, p2 x = true → p1 x = true) →
  sublist (List.filter p2 l) (List.filter p1 l).
Proof.
  intros Himp. induction l as [|x l IH]; simpl; [done|].
  destruct (p2 x) eqn:H2.
  - rewrite (Himp x H2). by constructor.
  - destruct (p1 x); [by constructor | done].
Qed.

Lemma sublist_list_filter {A} (p : A → bool) l : sublist (List.filter p l) l.
Proof.
  induction l as [|x l IH]; simpl; [done|]. destruct (p x); by constructor.
Qed.

(** X11.  Making the query longer can only narrow the result: when the
    (trimmed, lowercased) first query occurs in the second, every item
    found for the second is found for the first, in the same order; and
    every result is a part of the gallery, in gallery order. *)
Theorem longer_query_narrows gallery q1 q2 :
  is_substring (toLowerCase (trim q1)) (toLowerCase (trim q2)) →
  sublist (filteredGallery gallery q2) (filteredGallery gallery q1)
  ∧ sublist (filteredGallery gallery q1) gallery.
Proof.
  intros Hsub. unfold filteredGallery. split.
  - destruct (is_empty (toLowerCase (trim q1))) eqn:E1.
    { destruct (is_empty (toLowerCase (trim q2)));
        [reflexivity | apply sublist_list_filter]. }
    destruct (is_empty (toLowerCase (trim q2))) eqn:E2.
    { apply is_empty_true in E2. rewrite E2 in Hsub.
      destruct Hsub as ([|a x] & y & Hxy); [|discriminate Hxy].
      destruct (toLowerCase (trim q1)); [done | discriminate Hxy]. }
    apply sublist_filter_impl. intros item. unfold matches.
    rewrite !orb_true_iff, !includes_substring.
    intros [H|H]; [left | right]; by eapply is_substring_trans.
  - destruct (is_empty (toLowerCase (trim q1)));
      [reflexivity | apply sublist_list_filter].
Qed.

Lemma is_space_lower c : is_space (lower_char c) = is_space c.
Proof. by destruct c as [[] [] [] [] [] [] [] []]. Qed.

Lemma toLowerCase_trimStart s :
  toLowerCase (trimStart s) = trimStart (toLowerCase s).
Proof.
  induction s as [|c s IH]; [done|]. simpl.
  rewrite is_space_lower. by destruct (is_space c).
Qed.

Lemma toLowerCase_trim_end s :
  toLowerCase (trim_end s) = trim_end (toLowerCase s).
Proof.
  induction s as [|c s IH]; [done|].
  change (toLowerCase (String c s)) with (String (lower_char c) (toLowerCase s)).
  rewrite !trim_end_cons, <- IH, is_space_lower.
  destruct (trim_end s); [by destruct (is_space c) | done].
Qed.

Lemma toLowerCase_trim s : toLowerCase (trim s) = trim (toLowerCase s).
Proof.
  unfold trim. by rewrite !trimEnd_trim_end, toLowerCase_trim_end, toLowerCase_trimStart.
Qed.

(** X12.  The search does not see the case of the query: two queries with
    the same lowercase form give the same result. *)
Theorem query_case_is_ignored gallery q1 q2 :
  toLowerCase q1 = toLowerCase q2 →
  filteredGallery gallery q1 = filteredGallery gallery q2.
Proof.
  intros H. unfold filteredGallery. by rewrite !toLowerCase_trim, H.
Qed.

End SearchFurther.

Lemma longer_query_narrows_witness :
  sublist (Studio.filteredGallery [Studio.fox_item; Studio.unnamed_model_item] "red fox  ")
    (Studio.filteredGallery [Studio.fox_item; Studio.unnamed_model_item] " FOX")
  ∧ sublist (Studio.filteredGallery [Studio.fox_item; Studio.unnamed_model_item] " FOX")
      [Studio.fox_item; Studio.unnamed_model_item].
Proof.
  apply (longer_query_narrows [Studio.fox_item; Studio.unnamed_model_item]
           " FOX" "red fox  ").
  exists "red ", "". reflexivity.
Defined.

Lemma query_case_is_ignored_witness :
  Studio.filteredGallery [Studio.fox_item; Studio.unnamed_model_item] "NoIr"
  = Studio.filteredGallery [Studio.fox_item; Studio.unnamed_model_item] "noir".
Proof.
  apply (query_case_is_ignored [Studio.fox_item; Studio.unnamed_model_item]
           "NoIr" "noir").
  reflexivity.
Defined.

(** * Further properties: import *)

Section ImportFurther.
Import Js Studio.

Lemma merge_structure incoming prev :
  ∃ new, merge incoming prev = new ++ prev
         ∧ sublist new incoming
         ∧ Forall (λ i, id i ∉ ids prev) new.
Proof.
  destruct (merge_new_before_existing incoming prev) as (new & E & Hsub & Hfresh).
  exists new. repeat split; [done..|]. by apply Forall_forall.
Qed.

Lemma merge_filter incoming prev :
  merge incoming prev
  = List.filter (λ i, negb (bool_decide (id i ∈ ids prev))) incoming ++ prev.
Proof.
  unfold merge. f_equal. apply filter_ext. intros i. f_equal.
  apply bool_decide_ext, elem_of_list_to_set.
Qed.

(** An imported item has an image when the text of its [b64] is not
    empty. *)
Lemma imported_items_image entries w :
  List.filter has_image (imported_items entries w)
  = List.filter (λ i, negb (is_empty (toString (b64 i))))
      (imported_items entries w).
Proof.
  revert w. induction entries as [|x l IH]; intros w; simpl; [done|].
  rewrite IH.
  done.
Qed.

(** X13.  An import that goes through, that of an array whose entries can
    all be converted, puts before the gallery the items built from the
    entries, in their order, that have a non-empty image and an id the
    gallery did not hold; the gallery itself is kept whole and in order,
    the error shown is left as it was, and the new gallery is written to
    the storage unless the storage refuses it. *)
Theorem import_adds_in_front entries st w :
  forallb convertible entries = true →
  let after := handleImportFile (Some (Ok (VArr entries))) st w in
  gallery after.1
  = List.filter (λ i, negb (bool_decide (id i ∈ ids (gallery st))))
      (List.filter (λ i, negb (is_empty (toString (b64 i))))
         (imported_items entries w))
    ++ gallery st
  ∧ error after.1 = error st
  ∧ localStorage after.2
    = (if quota_ok w (gallery after.1) then Some (gallery after.1)
       else localStorage w).
Proof.
  intros Hconv after. subst after.
  destruct (import_entries_convertible entries w Hconv) as (w' & E & Hs & Hq).
  rewrite (handleImportFile_array _ _ _ _ _ E). cbn [fst snd gallery set_gallery error].
  rewrite merge_filter, imported_items_image. split; [done|]. split; [done|].
  unfold saveGalleryToStorage. rewrite Hq.
  destruct (quota_ok w _); [done|]. exact Hs.
Qed.

(** X14.  An import that does not go through (no file content that is
    JSON, a document that is not an array, or a [null] among the entries)
    changes neither the gallery nor the storage; unless no file was
    chosen, it shows a message. *)
Theorem import_failure_changes_nothing file st w :
  ¬ importable file →
  gallery (handleImportFile file st w).1 = gallery st
  ∧ localStorage (handleImportFile file st w).2 = localStorage w
  ∧ (file ≠ None → ∃ message, error (handleImportFile file st w).1 = Some message
                              ∧ message ≠ "").
Proof.
  intros Hno.
  destruct file as [[doc|err]|]; [| |done].
  - destruct doc as [| |b|n|s|entries|fields|f];
      try (split; [done|]; split; [done|]; intros _; eexists; by split).
    assert (forallb convertible entries = false) as Hbad.
    { apply unreadable_entries. intros Hread. apply Hno. by exists entries. }
    destruct (import_entries_throws entries w Hbad)
      as (message & w' & E & Hs & _ & Hm).
    rewrite (handleImportFile_throws _ _ _ _ _ E Hm). simpl.
    split; [done|]. split; [done|]. intros _. by exists message.
  - simpl. split; [done|]. split; [done|]. intros _. eexists. split; [done|].
    unfold message_or. destruct err as [[|c m]|]; done.
Qed.

Lemma imported_key x w w0 :
  has_id x → item_key (imported x w) = item_key (imported x w0).
Proof.
  intros [_ Hid]. unfold item_key, imported, has_image, or_else; simpl.
  by rewrite Hid.
Qed.

Lemma imported_items_keys entries w w0 :
  Forall has_id entries →
  List.map item_key (imported_items entries w)
  = List.map (λ x, item_key (imported x w0)) entries.
Proof.
  intros H. revert w. induction H as [|x l Hx _ IH]; intros w; simpl; [done|].
  by rewrite IH, (imported_key x w w0 Hx).
Qed.

Lemma merge_known incoming prev :
  Forall (λ i, id i ∈ ids prev) incoming → merge incoming prev = prev.
Proof.
  intros H. unfold merge.
  assert (List.filter
            (λ i, negb (bool_decide (id i ∈ (list_to_set (List.map id prev) : gset string))))
            incoming = []) as ->; [|done].
  induction H as [|i l Hi _ IH]; [done|]. simpl.
  rewrite bool_decide_eq_true_2 by (by apply elem_of_list_to_set). done.
Qed.

Lemma merge_covers incoming prev i :
  i ∈ incoming → id i ∈ ids (merge incoming prev).
Proof.
  intros Hi. unfold merge, ids. rewrite map_app, elem_of_app.
  destruct (decide (id i ∈ List.map id prev)) as [Hold|Hnew]; [by right|].
  left. apply (list_elem_of_fmap_2 id). apply list_elem_of_In, filter_In.
  split; [by apply list_elem_of_In|].
  apply negb_true_iff, bool_decide_eq_false. by rewrite elem_of_list_to_set.
Qed.

(** An import either goes through, with the items built from the entries,
    or throws and changes nothing but the error shown. *)
Lemma handleImportFile_cases entries st w :
  (forallb convertible entries = true
   ∧ ∃ w', handleImportFile (Some (Ok (VArr entries))) st w
           = (set_gallery
                (merge (List.filter has_image (imported_items entries w))
                   (gallery st)) st,
              saveGalleryToStorage
                (merge (List.filter has_image (imported_items entries w))
                   (gallery st)) w')
           ∧ localStorage w' = localStorage w ∧ quota_ok w' = quota_ok w)
  ∨ (forallb convertible entries = false
     ∧ ∃ message w', handleImportFile (Some (Ok (VArr entries))) st w
                     = (set_error (Some message) st, w')
                     ∧ localStorage w' = localStorage w
                     ∧ quota_ok w' = quota_ok w).
Proof.
  destruct (forallb convertible entries) eqn:Hconv.
  - left. split; [done|].
    destruct (import_entries_convertible entries w Hconv) as (w' & E & Hs & Hq).
    exists w'. by rewrite (handleImportFile_array _ _ _ _ _ E).
  - right. split; [done|].
    destruct (import_entries_throws entries w Hconv)
      as (message & w' & E & Hs & Hq & Hm).
    exists message, w'. by rewrite (handleImportFile_throws _ _ _ _ _ E Hm).
Qed.

(** X15.  Importing the same file a second time adds nothing, when every
    entry of the file brings its own id. *)
Theorem import_twice_adds_nothing entries st w w2 :
  Forall has_id entries →
  let once := (handleImportFile (Some (Ok (VArr entries))) st w).1 in
  gallery (handleImportFile (Some (Ok (VArr entries))) once w2).1 = gallery once.
Proof.
  intros Hids once. subst once.
  destruct (handleImportFile_cases entries st w)
    as [(Hconv & w' & -> & _)|(Hconv & message & w' & -> & _)]; cbn [fst].
  - destruct (handleImportFile_cases entries
                (set_gallery
                   (merge (List.filter has_image (imported_items entries w))
                      (gallery st)) st) w2)
      as [(_ & w2' & -> & _)|(Hconv2 & _)]; [|congruence].
    cbn [fst gallery set_gallery].
    apply merge_known, Forall_forall. intros i2 Hi2.
    apply list_elem_of_In, filter_In in Hi2 as [Hin Himg].
    assert (In (item_key i2) (List.map item_key (imported_items entries w))) as Hk.
    { rewrite (imported_items_keys entries w w Hids),
        <- (imported_items_keys entries w2 w Hids). by apply in_map. }
    apply in_map_iff in Hk as (i1 & Hkey & Hin1).
    injection Hkey as Hid Himg1.
    rewrite <- Hid. apply merge_covers, list_elem_of_In, filter_In.
    split; [done|]. congruence.
  - destruct (handleImportFile_cases entries (set_error (Some message) st) w2)
      as [(Hconv2 & _)|(_ & message2 & w2' & -> & _)]; [congruence|].
    done.
Qed.

(** X16.  Importing the export of the gallery into that same gallery
    changes nothing, when no item has an empty id: every exported item is
    recognised by its id. *)
Theorem import_own_export_changes_nothing st w :
  Forall (λ item, id item ≠ "") (gallery st) →
  gallery (handleImportFile (Some (Ok (exportGalleryAsJSON st))) st w).1
  = gallery st.
Proof.
  intros Hids. unfold exportGalleryAsJSON.
  assert (Forall has_id (List.map stringify_item (gallery st))) as Hhas.
  { apply Forall_forall. intros x Hx.
    apply list_elem_of_In, in_map_iff in Hx as (item & <- & Hitem).
    rewrite Forall_forall in Hids. apply list_elem_of_In, Hids in Hitem.
    split; [by split|]. destruct item as [i c p a z m b t]; simpl in *.
    by destruct i. }
  destruct (handleImportFile_cases (List.map stringify_item (gallery st)) st w)
    as [(Hconv & w' & -> & _)|(Hconv & message & w' & -> & _)]; [|done].
  cbn [fst gallery set_gallery].
  apply merge_known, Forall_forall. intros i Hi.
  apply list_elem_of_In, filter_In in Hi as [Hin _].
  assert (In (item_key i)
            (List.map item_key
               (imported_items (List.map stringify_item (gallery st)) w))) as Hk
    by (by apply in_map).
  rewrite (imported_items_keys _ w w Hhas), map_map in Hk.
  apply in_map_iff in Hk as (item & Hkey & Hitem).
  injection Hkey as Hid _. rewrite <- Hid.
  rewrite Forall_forall in Hids.
  pose proof (Hids item (proj2 (list_elem_of_In _ _) Hitem)) as Hne.
  unfold ids. apply list_elem_of_In, in_map_iff. exists item. split; [|done].
  destruct item as [i0 c p a z m b t]; simpl in *. by destruct i0.
Qed.

End ImportFurther.

(** * Further properties: submission *)

Section SubmitFurther.
Import Js Studio.

Variable env : Route.ProcessEnv.
Variable OpenAI : string → Route.Images.

Lemma message_or_nonempty err fallback :
  fallback ≠ "" → message_or err fallback ≠ "".
Proof. unfold message_or. destruct err as [[|c m]|]; done. Qed.

(** The two shapes of the proxy's answers. *)
Lemma POST_answer_shape req :
  (∃ s, s ≠ ""
        ∧ (Route.POST env OpenAI req).1
          = Route.json_response 200 [("content-type", "application/json")]
              (Route.b64_body s))
  ∨ (∃ code message,
       (code = 400 ∨ code = 500) ∧ message ≠ ""
       ∧ (Route.POST env OpenAI req).1 = Route.error_response code message).
Proof.
  rewrite POST_plan.
  destruct (Route.getOpenAI env OpenAI) as [client|err].
  2:{ right. exists 500, (message_or err "Unknown error").
      split; [auto|]. split; [by apply message_or_nonempty | done]. }
  destruct (Route.plan req) as [err|message|c] eqn:Hplan.
  - right. exists 500, (message_or err "Unknown error").
    split; [auto|]. split; [by apply message_or_nonempty | done].
  - right. exists 400, message. split; [auto|]. split; [|done].
    revert Hplan. unfold Route.plan, Route.plan_form, Route.plan_json.
    repeat case_match; try done; by intros [= <-].
  - simpl. destruct (Route.call_outcome client c) as [res|err]; simpl.
    + unfold Route.b64_response.
      destruct (Route.first_b64 res) as [[|a s]|].
      * right. exists 500, "no image returned". by repeat split; auto.
      * left. by exists (String a s).
      * right. exists 500, "no image returned". by repeat split; auto.
    + right. exists 500, (message_or err "Unknown error").
      split; [auto|]. split; [by apply message_or_nonempty | done].
Qed.

Lemma handleSubmit_success s st w :
  s ≠ "" →
  handleSubmit
    (Ok (Route.json_response 200 [("content-type", "application/json")]
           (Route.b64_body s))) st w
  = let item :=
      {| id := uuids w (uuid_calls w); createdAt := instants w (date_calls w);
         prompt := prompt_input st; action := action_input st;
         size := size_input st; model := model_input st; b64 := VStr s;
         tags := Some (parseTags (tagsInput st)) |} in
    let w1 :=
      {| uuids := uuids w; instants := instants w; quota_ok := quota_ok w;
         uuid_calls := S (uuid_calls w); date_calls := S (date_calls w);
         localStorage := localStorage w |} in
    let next := take 100 (item :: gallery st) in
    ({| prompt_input := prompt_input st; size_input := size_input st;
        action_input := action_input st; model_input := model_input st;
        imageB64 := VStr s; loading := false; error := None;
        gallery := next; tagsInput := tagsInput st |},
     saveGalleryToStorage next w1).
Proof. reflexivity. Qed.

Lemma handleSubmit_error code message st w :
  code = 400 ∨ code = 500 → message ≠ "" →
  handleSubmit (Ok (Route.error_response code message)) st w
  = ({| prompt_input := prompt_input st; size_input := size_input st;
        action_input := action_input st; model_input := model_input st;
        imageB64 := VNull; loading := false; error := Some message;
        gallery := gallery st; tagsInput := tagsInput st |}, w).
Proof.
  intros [-> | ->] Hm; destruct message as [|c m]; done.
Qed.

(** X17.  A submission answered by the proxy either adds one item at the
    head of the gallery (which is then cut to 100), with the fields of the
    form, at most 20 tags and a non-empty image, and clears the error; or
    it leaves the gallery and the storage as they were and shows the
    proxy's error message.  The loading flag is off afterwards. *)
Theorem submit_outcome imageFile maskFile boundary st w :
  let answer :=
    (Route.POST env OpenAI (submit_request st imageFile maskFile boundary)).1 in
  let r := submit env OpenAI imageFile maskFile boundary st w in
  loading r.1 = false
  ∧ ((∃ s item,
        Route.body answer = Route.b64_body s ∧ s ≠ ""
        ∧ item = {| id := uuids w (uuid_calls w);
                    createdAt := instants w (date_calls w);
                    prompt := prompt_input st; action := action_input st;
                    size := size_input st; model := model_input st;
                    b64 := VStr s; tags := Some (parseTags (tagsInput st)) |}
        ∧ gallery r.1 = take 100 (item :: gallery st)
        ∧ error r.1 = None ∧ imageB64 r.1 = VStr s)
     ∨ (∃ message,
          Route.body answer = Route.error_body message
          ∧ gallery r.1 = gallery st ∧ localStorage r.2 = localStorage w
          ∧ error r.1 = Some message ∧ imageB64 r.1 = VNull)).
Proof.
  intros answer r. subst answer r. unfold submit.
  destruct (POST_answer_shape (submit_request st imageFile maskFile boundary))
    as [(s & Hs & ->)|(code & message & Hcode & Hm & ->)].
  - rewrite handleSubmit_success by done. simpl. split; [done|].
    left. eexists s, _. by repeat split.
  - rewrite handleSubmit_error by done. simpl. split; [done|].
    right. exists message. by repeat split.
Qed.


(** The two results of a submission answered by the proxy. *)
Lemma submit_cases imageFile maskFile boundary st w :
  (∃ s, s ≠ ""
        ∧ submit env OpenAI imageFile maskFile boundary st w
          = handleSubmit
              (Ok (Route.json_response 200 [("content-type", "application/json")]
                     (Route.b64_body s))) st w)
  ∨ (∃ message,
       submit env OpenAI imageFile maskFile boundary st w
       = ({| prompt_input := prompt_input st; size_input := size_input st;
             action_input := action_input st; model_input := model_input st;
             imageB64 := VNull; loading := false; error := Some message;
             gallery := gallery st; tagsInput := tagsInput st |}, w)).
Proof.
  unfold submit.
  destruct (POST_answer_shape (submit_request st imageFile maskFile boundary))
    as [(s & Hs & ->)|(code & message & Hcode & Hm & ->)].
  - left. by exists s.
  - right. exists message. by apply handleSubmit_error.
Qed.

(** X18.  When the request fails on the way (the fetch throws) or the
    answer has a status outside 200..299, nothing is added: the gallery,
    the storage and the id and clock counters are as before, a non-empty
    message is shown, no image is displayed and the loading flag is off. *)
Theorem failed_submit_changes_nothing fetched st w :
  (∀ res, fetched = Ok res →
          ¬ (200 ≤ Route.status res ∧ Route.status res ≤ 299)) →
  gallery (handleSubmit fetched st w).1 = gallery st
  ∧ (handleSubmit fetched st w).2 = w
  ∧ (∃ message, error (handleSubmit fetched st w).1 = Some message ∧ message ≠ "")
  ∧ imageB64 (handleSubmit fetched st w).1 = VNull
  ∧ loading (handleSubmit fetched st w).1 = false.
Proof.
  intros Hbad. unfold handleSubmit, bind, lift.
  destruct fetched as [res|err].
  - assert ((200 <=? Route.status res) && (Route.status res <=? 299) = false) as ->.
    { apply andb_false_iff.
      destruct (200 <=? Route.status res) eqn:E1; [|by left].
      destruct (Route.status res <=? 299) eqn:E2; [|by right].
      destruct (Hbad res eq_refl). lia. }
    cbn -[message_or String_].
    destruct (String_ _) as [message|err]; cbn -[message_or];
      repeat split; try done;
      (eexists; split; [done|]; by apply message_or_nonempty).
  - cbn -[message_or]. repeat split; try done.
    eexists. split; [done|]. by apply message_or_nonempty.
Qed.

Lemma is_multipart_submit st imageFile maskFile boundary :
  Route.is_multipart (submit_request st imageFile maskFile boundary) = canUpload st.
Proof.
  unfold submit_request, Route.is_multipart.
  by destruct (canUpload st).
Qed.

(** X19.  From the page, an edit or a variation submitted without an
    image file never reaches the service: under a configured key the proxy
    rejects it, the page shows "image file is required for ..." and the
    gallery is unchanged. *)
Theorem submit_without_image_is_rejected maskFile boundary st w kind :
  Route.key_configured env = true →
  kind = "edit" ∨ kind = "variation" →
  action_input st = VStr kind →
  (Route.POST env OpenAI (submit_request st None maskFile boundary)).2 = []
  ∧ gallery (submit env OpenAI None maskFile boundary st w).1 = gallery st
  ∧ error (submit env OpenAI None maskFile boundary st w).1
    = Some ("image file is required for " +:+ kind).
Proof.
  intros Hkey Hkind Haction.
  destruct (getOpenAI_configured env OpenAI Hkey) as (apiKey & _ & Hclient).
  assert (Route.POST env OpenAI (submit_request st None maskFile boundary)
          = (Route.error_response 400 ("image file is required for " +:+ kind), []))
    as E.
  { rewrite POST_plan, Hclient. unfold Route.plan.
    rewrite is_multipart_submit. unfold submit_request, submit_form, canUpload.
    rewrite Haction.
    destruct Hkind as [-> | ->]; simpl; by destruct maskFile. }
  unfold submit. rewrite E. split; [done|]. cbn [fst].
  rewrite handleSubmit_error; [done | by left |].
  by destruct Hkind as [-> | ->].
Qed.

Lemma run_cons s e events :
  run env OpenAI s (e :: events) = run env OpenAI (step env OpenAI s e) events.
Proof. reflexivity. Qed.

Lemma step_has_image e st w :
  Forall (λ i, has_image i = true) (gallery st) →
  Forall (λ i, has_image i = true) (gallery (step env OpenAI (st, w) e).1).
Proof.
  intros H. destruct e as [p a z m t|item|img mask b|file|target|]; simpl; try done.
  - destruct (submit_cases img mask b st w) as [(s & Hs & ->)|(message & ->)];
      [|done].
    rewrite handleSubmit_success by done. simpl gallery.
    constructor; [by destruct s | by apply Forall_take].
  - apply Forall_forall. intros i Hi.
    apply imported_items_have_image in Hi as [Hi|Hi]; [|done].
    rewrite Forall_forall in H. by apply H.
  - apply Forall_forall. intros i Hi.
    apply list_elem_of_In, filter_In in Hi as [Hi _].
    rewrite Forall_forall in H. by apply H, list_elem_of_In.
Qed.

(** X20.  Whatever is done on the page (typing, "Use prompt", submissions
    answered by the proxy, imports, deletions, "Clear all"), every item of
    the gallery has a non-empty image, if that was so at the start. *)
Theorem every_item_keeps_an_image events st w :
  Forall (λ i, has_image i = true) (gallery st) →
  Forall (λ i, has_image i = true) (gallery (run env OpenAI (st, w) events).1).
Proof.
  revert st w. induction events as [|e events IH]; intros st w H; [done|].
  rewrite run_cons. destruct (step env OpenAI (st, w) e) as [st' w'] eqn:E.
  apply IH. pose proof (step_has_image e st w H) as H'. by rewrite E in H'.
Qed.

Lemma step_bounds e st w :
  is_import e = false →
  (length (gallery st) ≤ 100)%nat
  ∧ Forall (λ i, (length (tags_or_empty i) ≤ 20)%nat) (gallery st) →
  (length (gallery (step env OpenAI (st, w) e).1) ≤ 100)%nat
  ∧ Forall (λ i, (length (tags_or_empty i) ≤ 20)%nat)
      (gallery (step env OpenAI (st, w) e).1).
Proof.
  intros He [Hlen Htags].
  destruct e as [p a z m t|item|img mask b|file|target|]; simpl; try done.
  - destruct (submit_cases img mask b st w) as [(s & Hs & ->)|(message & ->)];
      [|done].
    rewrite handleSubmit_success by done. simpl gallery. split.
    + simpl. rewrite length_take. lia.
    + constructor; [apply parseTags_length | by apply Forall_take].
  - split.
    + etrans; [apply (deleteFromGallery_length target st w)|]. done.
    + apply Forall_forall. intros i Hi.
      apply list_elem_of_In, filter_In in Hi as [Hi _].
      rewrite Forall_forall in Htags. by apply Htags, list_elem_of_In.
  - split; [simpl; lia | constructor].
Qed.

(** X21.  As long as nothing is imported, the gallery never holds more
    than 100 items and no item has more than 20 tags, whatever else is
    done on the page, if that was so at the start. *)
Theorem bounds_hold_without_import events st w :
  Forall (λ e, is_import e = false) events →
  (length (gallery st) ≤ 100)%nat →
  Forall (λ i, (length (tags_or_empty i) ≤ 20)%nat) (gallery st) →
  (length (gallery (run env OpenAI (st, w) events).1) ≤ 100)%nat
  ∧ Forall (λ i, (length (tags_or_empty i) ≤ 20)%nat)
      (gallery (run env OpenAI (st, w) events).1).
Proof.
  intros Hev. revert st w.
  induction Hev as [|e events He _ IH]; intros st w Hlen Htags; [done|].
  rewrite run_cons. destruct (step env OpenAI (st, w) e) as [st' w'] eqn:E.
  pose proof (step_bounds e st w He (conj Hlen Htags)) as [H1 H2].
  rewrite E in H1, H2. by apply IH.
Qed.

End SubmitFurther.

(** * Further properties: storage and loading *)

Section StorageFurther.
Import Js Studio.

Variable env : Route.ProcessEnv.
Variable OpenAI : string → Route.Images.


Lemma load_item_stringify item :
  load_item (stringify_item item) = Ok (stringify_item (fill_tags item)).
Proof.
  destruct item as [i c p a z m b t].
  unfold load_item, stringify_item, fill_tags, tags_or_empty, property; simpl.
  destruct (stringify a), (stringify z), (stringify b), t; reflexivity.
Qed.

Lemma load_items_stringify items :
  load_items (List.map stringify_item items)
  = Ok (List.map stringify_item (List.map fill_tags items)).
Proof.
  induction items as [|item items IH]; [done|].
  cbn [List.map load_items]. by rewrite load_item_stringify, IH.
Qed.

Lemma import_entries_world entries w r w' :
  import_entries entries w = (r, w') →
  localStorage w' = localStorage w ∧ quota_ok w' = quota_ok w.
Proof.
  destruct (forallb convertible entries) eqn:Hconv.
  - destruct (import_entries_convertible entries w Hconv) as (w1 & -> & Hs & Hq).
    by intros [= _ <-].
  - destruct (import_entries_throws entries w Hconv)
      as (message & w1 & -> & Hs & Hq & _).
    by intros [= _ <-].
Qed.

Lemma step_sync e st w :
  roomy w → in_sync st w →
  roomy (step env OpenAI (st, w) e).2
  ∧ in_sync (step env OpenAI (st, w) e).1 (step env OpenAI (st, w) e).2.
Proof.
  intros Hroom Hsync.
  assert (∀ next w0, quota_ok w0 = quota_ok w →
            roomy (saveGalleryToStorage next w0)
            ∧ localStorage (saveGalleryToStorage next w0) = Some next) as Hsave.
  { intros next w0 Hq. unfold saveGalleryToStorage.
    rewrite Hq, (Hroom next). split; [|done].
    intros items. simpl. apply Hroom. }
  destruct e as [p a z m t|item|img mask b|file|target|]; simpl; try done.
  - destruct (submit_cases env OpenAI img mask b st w)
      as [(s & Hs & ->)|(message & ->)]; [|done].
    rewrite handleSubmit_success by done. cbv zeta. cbn [fst snd].
    match goal with
    | |- context [saveGalleryToStorage ?n ?w0] =>
        destruct (Hsave n w0 eq_refl) as [H1 H2]
    end.
    split; [done|]. unfold in_sync. by rewrite H2.
  - unfold handleImportFile, bind, lift, ret.
    destruct file as [[doc|err]|]; [|done..].
    destruct doc; try done.
    destruct (import_entries elements w) as [[items|err] w1] eqn:E;
      apply import_entries_world in E as [E1 E2].
    + cbn [fst snd].
      match goal with
      | |- context [saveGalleryToStorage ?n ?w0] =>
          destruct (Hsave n w0 E2) as [H1 H2]
      end.
      split; [done|]. unfold in_sync. by rewrite H2.
    + cbn [fst snd]. split.
      * unfold roomy. by rewrite E2.
      * unfold in_sync in *. by rewrite E1.
  - unfold deleteFromGallery. cbn [fst snd].
    match goal with
    | |- context [saveGalleryToStorage ?n ?w0] =>
        destruct (Hsave n w0 eq_refl) as [H1 H2]
    end.
    split; [done|]. unfold in_sync. by rewrite H2.
  - unfold clearGallery. cbn [fst snd].
    destruct (Hsave [] w eq_refl) as [H1 H2].
    split; [done|]. unfold in_sync. by rewrite H2.
Qed.

Lemma run_sync events st w :
  roomy w → in_sync st w →
  in_sync (run env OpenAI (st, w) events).1 (run env OpenAI (st, w) events).2.
Proof.
  revert st w. induction events as [|e events IH]; intros st w Hroom Hsync; [done|].
  rewrite run_cons. destruct (step_sync e st w Hroom Hsync) as [H1 H2].
  destruct (step env OpenAI (st, w) e) as [st' w']. by apply IH.
Qed.

(** X22.  When the storage never refuses a write and holds the gallery at
    the start, then after anything done on the page a reload reads the
    gallery back from the storage: [loadGalleryFromStorage] returns the
    items of the gallery, in order, each as the object that was saved
    (with [tags: []] for an item that had no tags). *)
Theorem reload_restores_gallery events st w :
  roomy w → in_sync st w →
  loadGalleryFromStorage (stored_document (run env OpenAI (st, w) events).2)
  = List.map stringify_item
      (List.map fill_tags (gallery (run env OpenAI (st, w) events).1)).
Proof.
  intros Hroom Hsync. pose proof (run_sync events st w Hroom Hsync) as H.
  destruct (run env OpenAI (st, w) events) as [st' w']. cbn [fst snd] in *.
  unfold in_sync in H. unfold stored_document, loadGalleryFromStorage.
  destruct (localStorage w') as [items|].
  - subst items. by rewrite load_items_stringify.
  - by rewrite H.
Qed.






End StorageFurther.

(** * Further properties of the export overlay *)

Section OverlayFurther.
Import Js Studio.

Variable measureText : string → string → QArith_base.Q.

Lemma join_cons sep x (l : list string) :
  l ≠ [] → join sep (x :: l) = x +:+ sep +:+ join sep l.
Proof. by destruct l. Qed.

Lemma greedy_lines_some fits line words :
  line ≠ "" → greedy_lines fits line words ≠ [].
Proof.
  revert line. induction words as [|w rest IH]; intros line Hline; simpl.
  - by destruct line.
  - destruct line as [|c line]; [done|]. simpl.
    destruct (fits _); [by apply IH | done].
Qed.

Lemma join_greedy_from fits line words :
  line ≠ "" → Forall (λ w, w ≠ "") words →
  join " " (greedy_lines fits line words) = join " " (line :: words).
Proof.
  intros Hline Hwords. revert line Hline.
  induction Hwords as [|w rest Hw _ IH]; intros line Hline.
  - by destruct line.
  - destruct line as [|c line]; [done|].
    cbn [greedy_lines is_empty].
    destruct (fits _).
    + rewrite IH by done.
      destruct rest as [|w' rest]; [done|].
      rewrite !join_cons by done. by rewrite !append_assoc.
    + cbn [app]. rewrite join_cons by (by apply greedy_lines_some).
      by rewrite IH.
Qed.

Lemma join_greedy fits words :
  Forall (λ w, w ≠ "") words →
  join " " (greedy_lines fits "" words) = join " " words.
Proof.
  intros [|w rest Hw Hrest]; [done|].
  cbn [greedy_lines is_empty].
  destruct (fits w); by apply join_greedy_from.
Qed.

Lemma join_take_prefix sep n (lines : list string) :
  ∃ rest, join sep lines = join sep (take n lines) +:+ rest.
Proof.
  revert n. induction lines as [|x lines IH]; intros n.
  - exists "". by destruct n.
  - destruct n as [|n]; [by eexists|]. cbn [take].
    destruct lines as [|y lines].
    { exists "". rewrite take_nil. by rewrite append_empty_r. }
    destruct (IH n) as [rest Hrest].
    rewrite join_cons by done. rewrite Hrest.
    destruct (take n (y :: lines)) as [|z l] eqn:E.
    + by exists (sep +:+ join sep [] +:+ rest).
    + change (join sep (x :: z :: l)) with (x +:+ sep +:+ join sep (z :: l)).
      exists rest. by rewrite !append_assoc.
Qed.

(** X24.  The overlay neither alters, skips nor reorders words: when the
    prompt has no white space at its ends (so that none of its words is
    empty), the lines drawn, joined by single spaces, are a beginning of
    the words of the prompt joined by single spaces. *)
Theorem overlay_keeps_the_words fits promptText :
  Forall (λ w, w ≠ "") (split_spaces promptText) →
  ∃ rest,
    join " " (split_spaces promptText)
    = join " " (prompt_lines fits promptText) +:+ rest.
Proof.
  intros Hwords. rewrite prompt_lines_greedy, <- (join_greedy fits) by done.
  apply join_take_prefix.
Qed.

Lemma holds_from_spec check start count :
  holds_from check start count = true →
  ∀ n, start ≤ n < start + Z.of_nat count → check n = true.
Proof.
  revert start. induction count as [|count IH]; intros start; simpl.
  - intros _ n Hn. lia.
  - intros [Hstart Hrest]%andb_true_iff n Hn.
    destruct (decide (n = start)) as [->|Hne]; [done|].
    apply (IH (start + 1) Hrest). lia.
Qed.

(** The sizes of the overlay, computed for every dimension up to 8192. *)
Lemma overlay_sizes_checked :
  holds_from overlay_sizes_ok 0 (Z.to_nat 8193) = true.
Proof. vm_cast_no_check (eq_refl true). Qed.

Lemma overlay_sizes n :
  0 ≤ n ≤ 8192 →
  2 * band_padding n + 2 * heading_size n + 4 < Z.max 72 (n * 16 / 100)
  ∧ (32 < n → 2 * band_padding n < n)
  ∧ band_height n = Z.max 72 (n * 16 / 100).
Proof.
  intros Hn.
  pose proof (holds_from_spec _ _ _ overlay_sizes_checked n) as H.
  rewrite Z2Nat.id in H by lia. specialize (H ltac:(lia)).
  unfold overlay_sizes_ok in H.
  apply andb_true_iff in H as [[H1 H2]%andb_true_iff H3].
  apply Z.ltb_lt in H1. apply Z.eqb_eq in H3.
  split; [done|]. split; [|done]. intros Hwide.
  apply orb_true_iff in H2 as [H2|H2]; [apply Z.leb_le in H2; lia|].
  by apply Z.ltb_lt in H2.
Qed.

(** The drawing calls of the overlay, whether the metadata line is
    written or the template literal throws. *)
Lemma drawOverlay_ops item width height :
  (drawOverlay measureText item width height).1
  = FillRect "rgba(0,0,0,0.55)" 0 (height - band_height height) width
      (band_height height)
    :: imap (λ i l, FillText "#fff" (font_of "600" (heading_size width)) l
                      (band_padding width)
                      (height - band_height height + band_padding width
                       + heading_size width
                       + Z.of_nat i * (heading_size width + 4)))
         (prompt_lines (fits_band measureText width) (prompt item))
    ++ match meta_line item with
       | Ok meta =>
           [FillText "#fff"
              (font_of "400"
                 (Z.max 12 (Math_floor (double_mul (double_of_Z width)
                                          double_0_014))))
              meta (band_padding width) (height - band_padding width)]
       | Throw _ => []
       end
  ∧ (drawOverlay measureText item width height).2
    = match meta_line item with
      | Ok _ => Ok tt
      | Throw err => Throw err
      end.
Proof.
  unfold drawOverlay. destruct (meta_line item) as [meta|err]; [done|].
  cbn [fst snd]. split; [|done]. by rewrite app_nil_r.
Qed.

(** X25.  On a canvas at least 72 and at most 8192 high, wider than 32
    and not wider than high, the overlay is laid out inside the image: the
    band spans the full width at the bottom, and every text starts at the
    padding, right of the left edge; the prompt lines lie below the top of
    the band by at least the padding and above the metadata line, which
    itself lies above the bottom edge.  The metadata line is written
    exactly when the function returns. *)
Theorem overlay_layout item width height :
  32 < width → width ≤ height → 72 ≤ height → height ≤ 8192 →
  let pad := band_padding width in
  let top := height - band_height height in
  ∃ prompts metas,
    (drawOverlay measureText item width height).1
    = FillRect "rgba(0,0,0,0.55)" 0 top width (height - top) :: prompts ++ metas
    ∧ 0 ≤ top ∧ 0 < pad ∧ pad < width - pad ∧ top < height - pad < height
    ∧ Forall (λ op, match op with
                    | FillText _ _ _ x y =>
                        x = pad ∧ top + pad ≤ y - heading_size width
                        ∧ y < height - pad
                    | FillRect _ _ _ _ _ => False
                    end) prompts
    ∧ Forall (λ op, match op with
                    | FillText _ _ _ x y => x = pad ∧ y = height - pad
                    | FillRect _ _ _ _ _ => False
                    end) metas
    ∧ match (drawOverlay measureText item width height).2 with
      | Ok _ => length metas = 1%nat
      | Throw _ => metas = []
      end.
Proof.
  intros Hw Hwh Hh Hmax pad top. subst pad top.
  destruct (drawOverlay_ops item width height) as [-> ->].
  destruct (overlay_sizes width) as (Hroom & Hpadw & _); [lia|].
  destruct (overlay_sizes height) as (_ & _ & Hband); [lia|].
  specialize (Hpadw Hw).
  assert (16 ≤ band_padding width) as Hpad by apply Z.le_max_l.
  assert (16 ≤ heading_size width) as Hhead by apply Z.le_max_l.
  remember (band_padding width) as pad eqn:Epad. clear Epad.
  remember (heading_size width) as headingSize eqn:Ehead. clear Ehead.
  remember (band_height height) as overlayHeight eqn:Eband. clear Eband.
  assert (2 * pad + 2 * headingSize + 4 < overlayHeight ∧ overlayHeight ≤ height)
    as [Hfit Hin].
  { subst overlayHeight. revert Hroom.
    Z.to_euclidean_division_equations. lia. }
  clear Hroom.
  eexists _, _. split.
  { replace (height - (height - overlayHeight)) with overlayHeight by lia.
    reflexivity. }
  split; [lia|]. split; [lia|]. split; [lia|]. split; [lia|].
  set (fits := fits_band measureText width).
  pose proof (prompt_lines_greedy fits (prompt item)) as Hlines.
  assert (length (prompt_lines fits (prompt item)) ≤ 2)%nat as Hlen.
  { rewrite Hlines, length_take. lia. }
  split; [|split].
  - destruct (prompt_lines fits (prompt item)) as [|l1 [|l2 [|l3 ls]]];
      simpl in Hlen; try lia; cbn [imap];
      repeat constructor; simpl; lia.
  - destruct (meta_line item); by repeat constructor.
  - by destruct (meta_line item).
Qed.

End OverlayFurther.

(** * From an item of the gallery to a new one *)

Section Recreate.
Import Js Studio.

Variable env : Route.ProcessEnv.
Variable OpenAI : string → Route.Images.

(** X26.  "Use prompt" followed by a submission that succeeds (no error
    is shown afterwards) puts at the head of the gallery an item with the
    prompt, the action, the size and the model of the item used, and with
    its tags when these are tidy and at most 20. *)
Theorem use_prompt_then_create item imageFile maskFile boundary st w :
  Forall tidy (tags_or_empty item) →
  (length (tags_or_empty item) ≤ 20)%nat →
  error (submit env OpenAI imageFile maskFile boundary
           (handleUsePrompt item st) w).1 = None →
  ∃ new rest,
    gallery (submit env OpenAI imageFile maskFile boundary
               (handleUsePrompt item st) w).1 = new :: rest
    ∧ prompt new = prompt item ∧ action new = action item
    ∧ size new = size item ∧ model new = model item
    ∧ tags_or_empty new = tags_or_empty item
    ∧ has_image new = true.
Proof.
  intros Htidy Hlen.
  destruct (submit_cases env OpenAI imageFile maskFile boundary
              (handleUsePrompt item st) w) as [(s & Hs & ->)|(message & ->)];
    [|done].
  intros _. rewrite handleSubmit_success by done. cbn [fst gallery].
  eexists _, _. split; [reflexivity|]. cbn.
  repeat (split; [reflexivity|]).
  split; [by apply parseTags_join|].
  by destruct s.
Qed.

End Recreate.

(** * Instances of the further properties *)

Section FurtherWitnesses.
Import Js Studio.

Lemma import_adds_in_front_witness :
  gallery
    (handleImportFile
       (Some (Ok (VArr [entry "a" "aGVsbG8="; entry "b" ""; entry "7f3c" "d29ybGQ="])))
       (set_gallery [fox_item] initial) sample_world).1
  = [{| id := "a"; createdAt := "2025-01-01T00:00:00.000Z"; prompt := "";
        action := VStr "generate"; size := VStr "1024x1024";
        model := "gpt-image-1"; b64 := VStr "aGVsbG8="; tags := Some [] |};
     fox_item].
Proof.
  destruct (import_adds_in_front
              [entry "a" "aGVsbG8="; entry "b" ""; entry "7f3c" "d29ybGQ="]
              (set_gallery [fox_item] initial) sample_world eq_refl)
    as (Hgallery & _).
  etrans; [exact Hgallery|]. vm_compute. reflexivity.
Defined.

Lemma import_failure_changes_nothing_witness :
  gallery (handleImportFile (Some (Ok (VArr [entry "k1" "aGVsbG8="; VNull])))
             (set_gallery [fox_item] initial) sample_world).1
  = [fox_item].
Proof.
  destruct (import_failure_changes_nothing
              (Some (Ok (VArr [entry "k1" "aGVsbG8="; VNull])))
              (set_gallery [fox_item] initial) sample_world)
    as (Hgallery & _).
  - intros (entries & [= <-] & Hread).
    apply Forall_cons in Hread as [_ Hread].
    apply Forall_cons in Hread as [[Hnull _] _]. done.
  - exact Hgallery.
Defined.

Lemma import_twice_adds_nothing_witness :
  gallery (handleImportFile (Some (Ok file_with_twins))
             (handleImportFile (Some (Ok file_with_twins)) initial sample_world).1
             sample_world).1
  = gallery (handleImportFile (Some (Ok file_with_twins)) initial sample_world).1.
Proof.
  apply (import_twice_adds_nothing [entry "a" "aGVsbG8="; entry "a" "d29ybGQ="]
           initial sample_world sample_world).
  by repeat constructor.
Defined.

Lemma import_own_export_changes_nothing_witness :
  gallery (handleImportFile
             (Some (Ok (exportGalleryAsJSON
                          (set_gallery [fox_item; unnamed_model_item] initial))))
             (set_gallery [fox_item; unnamed_model_item] initial) sample_world).1
  = [fox_item; unnamed_model_item].
Proof.
  apply (import_own_export_changes_nothing
           (set_gallery [fox_item; unnamed_model_item] initial) sample_world).
  by repeat constructor.
Defined.

Lemma failed_submit_changes_nothing_witness :
  gallery (handleSubmit (Throw (Some "Failed to fetch"))
             (set_gallery [fox_item] initial) sample_world).1
  = [fox_item]
  ∧ error (handleSubmit (Throw (Some "Failed to fetch"))
             (set_gallery [fox_item] initial) sample_world).1
    = Some "Failed to fetch".
Proof.
  destruct (failed_submit_changes_nothing (Throw (Some "Failed to fetch"))
              (set_gallery [fox_item] initial) sample_world)
    as (Hgallery & _); [done|].
  split; [exact Hgallery | reflexivity].
Defined.

Lemma submit_without_image_is_rejected_witness :
  let st := {| prompt_input := "make it blue"; size_input := VStr "1024x1024";
               action_input := VStr "edit"; model_input := "gpt-image-1";
               imageB64 := VNull; loading := false; error := None;
               gallery := [fox_item]; tagsInput := "" |} in
  (Route.POST Route.sample_env Route.steady_service
     (submit_request st None None "----x")).2 = []
  ∧ gallery (submit Route.sample_env Route.steady_service None None "----x"
               st sample_world).1 = [fox_item]
  ∧ error (submit Route.sample_env Route.steady_service None None "----x"
             st sample_world).1 = Some "image file is required for edit".
Proof.
  intros st.
  apply (submit_without_image_is_rejected Route.sample_env Route.steady_service
           None "----x" st sample_world "edit"); [reflexivity | by left | reflexivity].
Defined.

Lemma every_item_keeps_an_image_witness :
  Forall (λ i, has_image i = true)
    (gallery (run Route.sample_env Route.steady_service (initial, sample_world)
                [Create None None "----x"; ImportFile (Some (Ok file_with_twins));
                 Delete "uuid-0"; EditForm "a red fox" (VStr "variation")
                                    (VStr "512x512") "dall-e-2" "noir";
                 Create (Some Route.sample_file) None "----x"]).1).
Proof.
  apply (every_item_keeps_an_image Route.sample_env Route.steady_service).
  constructor.
Defined.

Lemma bounds_hold_without_import_witness :
  (length (gallery (run Route.sample_env Route.steady_service (initial, sample_world)
                      [Create None None "----x"; Delete "uuid-0";
                       Create None None "----x"; ClearAll]).1) ≤ 100)%nat.
Proof.
  apply (bounds_hold_without_import Route.sample_env Route.steady_service
           [Create None None "----x"; Delete "uuid-0";
            Create None None "----x"; ClearAll] initial sample_world).
  - by repeat constructor.
  - simpl. lia.
  - constructor.
Defined.

Lemma reload_restores_gallery_witness :
  loadGalleryFromStorage
    (stored_document
       (run Route.sample_env Route.steady_service (initial, sample_world)
          [Create None None "----x"; ImportFile (Some (Ok file_with_twins))]).2)
  = List.map stringify_item
      (List.map fill_tags
         (gallery (run Route.sample_env Route.steady_service (initial, sample_world)
                     [Create None None "----x";
                      ImportFile (Some (Ok file_with_twins))]).1)).
Proof.
  apply (reload_restores_gallery Route.sample_env Route.steady_service).
  - intros items. reflexivity.
  - reflexivity.
Defined.

Lemma overlay_keeps_the_words_witness :
  ∃ rest,
    join " " (split_spaces "a red fox jumps over the lazy dog")
    = join " " (prompt_lines (λ s, Nat.ltb (String.length s) 10)
                  "a red fox jumps over the lazy dog") +:+ rest.
Proof.
  apply (overlay_keeps_the_words (λ s, Nat.ltb (String.length s) 10)
           "a red fox jumps over the lazy dog").
  vm_compute. repeat (constructor; [discriminate|]). constructor.
Defined.

Lemma overlay_layout_witness :
  ∃ prompts metas,
    (drawOverlay (λ _ text, QArith_base.inject_Z (Z.of_nat (String.length text)))
       fox_item 1500 1500).1
    = FillRect "rgba(0,0,0,0.55)" 0 1260 1500 240 :: prompts ++ metas
    ∧ Forall (λ op, match op with
                    | FillText _ _ _ x y => x = 30 ∧ 1290 ≤ y - 26 ∧ y < 1470
                    | FillRect _ _ _ _ _ => False
                    end) prompts
    ∧ length metas = 1%nat.
Proof.
  destruct (overlay_layout
              (λ _ text, QArith_base.inject_Z (Z.of_nat (String.length text)))
              fox_item 1500 1500)
    as (prompts & metas & E & _ & _ & _ & _ & Hprompts & _ & Hmetas); [lia..|].
  exists prompts, metas. split; [exact E|]. split; [exact Hprompts|].
  exact Hmetas.
Defined.

Lemma use_prompt_then_create_witness :
  ∃ new rest,
    gallery (submit Route.sample_env Route.steady_service None None "----x"
               (handleUsePrompt fox_item initial) sample_world).1 = new :: rest
    ∧ prompt new = prompt fox_item ∧ tags_or_empty new = tags_or_empty fox_item.
Proof.
  destruct (use_prompt_then_create Route.sample_env Route.steady_service
              fox_item None None "----x" initial sample_world)
    as (new & rest & Hg & Hp & _ & _ & _ & Ht & _).
  - constructor; [|constructor]. by repeat split.
  - simpl. lia.
  - reflexivity.
  - by exists new, rest.
Defined.

End FurtherWitnesses.
